(** * LibuvStreamWrap (src/stream_wrap.cc): a shallow embedding

    The adapter between libuv stream handles and node's StreamBase.
    libuv, V8 and the wrap classes of the other handle kinds are external
    to the file: every call into them is recorded in a trace and answered
    by an oracle, so that the statements below hold for every behaviour of
    those collaborators. *)

From Stdlib Require Import ZArith Lia.
From stdpp Require Import base numbers option list gmap strings.

Local Open Scope Z_scope.

(** ** Machine integers *)

(** [size_t] is 64 bits wide (LP64); [uint32_t] 32 bits; [int] 32 bits. *)
Definition SIZE_MAX : Z := 2 ^ 64 - 1.
Definition UINT32_MAX : Z := 2 ^ 32 - 1.
Definition INT_MAX : Z := 2 ^ 31 - 1.
Definition INT_MIN : Z := - 2 ^ 31.

(** Conversion to [size_t] and unsigned arithmetic on it. *)
Definition to_size_t (z : Z) : Z := z mod (SIZE_MAX + 1).
Definition to_uint32_t (z : Z) : Z := z mod (UINT32_MAX + 1).

(** ** libuv data *)

(** [uv_handle_type] of uv.h. *)
Inductive uv_handle_type : Set :=
| UV_UNKNOWN_HANDLE | UV_ASYNC | UV_CHECK | UV_FS_EVENT | UV_FS_POLL
| UV_HANDLE | UV_IDLE | UV_NAMED_PIPE | UV_POLL | UV_PREPARE | UV_PROCESS
| UV_STREAM | UV_TCP | UV_TIMER | UV_TTY | UV_UDP | UV_SIGNAL | UV_FILE.

#[global] Instance uv_handle_type_eq_dec : EqDecision uv_handle_type.
Proof. solve_decision. Defined.

(** [uv_buf_t]: [base] is the address of the first byte, [len] a [size_t]. *)
Record uv_buf_t : Set := mk_buf { base : Z; len : Z }.

#[global] Instance uv_buf_t_eq_dec : EqDecision uv_buf_t.
Proof. solve_decision. Defined.

(** The fields of [uv_stream_t] (and of [uv_pipe_t], which extends it) that
    the file reads.  [data] is the back pointer to the owning wrap and tells
    handles apart. *)
Record uv_stream_t : Set := mk_stream {
  data : nat;
  type : uv_handle_type;
  ipc : Z;
  write_queue_size : Z
}.

#[global] Instance uv_stream_t_eq_dec : EqDecision uv_stream_t.
Proof. solve_decision. Defined.

(** ** JavaScript side *)

(** A [Local<Object>] is either empty or refers to an object of the heap;
    objects are named by their identity. *)
Definition Object : Set := nat.

(** The values a JavaScript caller can pass to a bound method. *)
Inductive Value : Set :=
| Undefined
| Boolean (b : bool)
| Int32 (n : Z)
| ObjectRef (o : Object).

(** [Value::IsTrue]: the value is the boolean [true] itself. *)
Definition IsTrue (v : Value) : bool :=
  match v with Boolean true => true | _ => false end.

(** The wrap classes [AcceptHandle] is instantiated with. *)
Inductive WrapType : Set := TCPWrap | PipeWrap | UDPWrap.

#[global] Instance WrapType_eq_dec : EqDecision WrapType.
Proof. solve_decision. Defined.

(** Request wraps; [req()] is the libuv request embedded in the wrap. *)
Record WriteWrap : Set := mk_write_wrap { write_req : nat }.
Record ShutdownWrap : Set := mk_shutdown_wrap { shutdown_req : nat }.

(** ** The adapter object *)

Record LibuvStreamWrap : Set := mk_wrap {
  (** [uv_stream_t* const stream_]; [None] is [nullptr]. *)
  stream_ : option uv_stream_t;
  (** [persistent()]: the strong reference to the JavaScript object,
      [None] once it has been reset. *)
  persistent : option Object;
  (** What [HandleWrap::IsAlive(this)] answers; handle_wrap.h keeps the
      close state and is not part of this file. *)
  handle_alive : bool
}.

Definition stream (this : LibuvStreamWrap) : option uv_stream_t := stream_ this.

(** ** Calls that leave the file *)

Inductive Event : Set :=
| Call_uv_read_start (s : option uv_stream_t)
| Call_uv_read_stop (s : option uv_stream_t)
| Call_uv_close (s : option uv_stream_t)
| Call_uv_shutdown (req : ShutdownWrap) (s : option uv_stream_t)
| Call_uv_pipe_pending_count (s : option uv_stream_t)
| Call_uv_pipe_pending_type (s : option uv_stream_t)
| Call_Instantiate (t : WrapType) (parent : LibuvStreamWrap)
| Call_uv_accept (server : option uv_stream_t) (client : uv_stream_t)
| Call_Set (o : Object) (key : string) (v : Object)
| Call_EmitAlloc (suggested_size : Z)
| Call_EmitRead (nread : Z) (buf : uv_buf_t)
| Call_uv_stream_set_blocking (s : option uv_stream_t) (enable : bool)
| Call_uv_try_write (s : option uv_stream_t) (bufs : list uv_buf_t)
| Call_uv_write (req : WriteWrap) (s : option uv_stream_t)
    (bufs : list uv_buf_t)
| Call_uv_write2 (req : WriteWrap) (s : option uv_stream_t)
    (bufs : list uv_buf_t) (send_handle : uv_stream_t)
| Call_Dispatched_write (w : WriteWrap)
| Call_Dispatched_shutdown (w : ShutdownWrap)
| Call_Done_write (w : WriteWrap) (status : Z)
| Call_Done_shutdown (w : ShutdownWrap) (status : Z).

(** Process-wide byte counters of node_counters.h. *)
Record Counters : Set := mk_counters {
  net_bytes_recv : Z;
  pipe_bytes_recv : Z;
  net_bytes_sent : Z;
  pipe_bytes_sent : Z
}.

(** What the functions of the file can change: the log of external calls
    (oldest first), the own properties of JavaScript objects, and the
    counters. *)
Record World : Type := mk_world {
  trace : list Event;
  heap : gmap Object (gmap string Object);
  counters : Counters
}.

(** The places where the file terminates the process. *)
Inductive AbortSite : Set :=
| ABORT_uv_accept          (* stream_wrap.cc:196 *)
| CHECK_persistent         (* stream_wrap.cc:215 *)
| CHECK_pending_type       (* stream_wrap.cc:233 *)
| FromJust_Set             (* stream_wrap.cc:239 *)
| CHECK_args_length        (* stream_wrap.cc:266 *)
| CHECK_req_wrap.          (* stream_wrap.cc:285, 365 *)

(** A call returns, terminates the process, or has no defined behaviour
    (a null or out-of-bounds dereference). *)
Inductive Outcome (A : Type) : Type :=
| Returned (a : A) (σ : World)
| Aborted (site : AbortSite) (σ : World)
| NoBehaviour.
Arguments Returned {A} a σ.
Arguments Aborted {A} site σ.
Arguments NoBehaviour {A}.

Definition M (A : Type) : Type := World → Outcome A.

Definition ret {A} (a : A) : M A := λ σ, Returned a σ.

Definition bind {A B} (m : M A) (k : A → M B) : M B :=
  λ σ, match m σ with
       | Returned a σ' => k a σ'
       | Aborted site σ' => Aborted site σ'
       | NoBehaviour => NoBehaviour
       end.

Definition abort {A} (site : AbortSite) : M A := λ σ, Aborted site σ.

Definition deref {A} (p : option A) : M A :=
  λ σ, match p with Some a => Returned a σ | None => NoBehaviour end.

(** The world after one more external call. *)
Definition logged (e : Event) (σ : World) : World :=
  mk_world (trace σ ++ [e]) (heap σ) (counters σ).

Definition log (e : Event) : M unit := λ σ, Returned tt (logged e σ).

Definition CHECK (site : AbortSite) (b : bool) : M unit :=
  if b then ret tt else abort site.

Declare Scope stream_scope.
Delimit Scope stream_scope with stream.
Notation "x <- m ;; k" := (bind m (λ x, k))
  (at level 100, m at next level, right associativity) : stream_scope.
Notation "m ;;; k" := (bind m (λ _, k))
  (at level 100, right associativity) : stream_scope.
Local Open Scope stream_scope.

(** The world after the counters changed by [f]. *)
Definition counted (f : Counters → Counters) (σ : World) : World :=
  mk_world (trace σ) (heap σ) (f (counters σ)).

Definition bump (f : Counters → Counters) : M unit :=
  λ σ, Returned tt (counted f σ).

(** An external call: logged, then answered. *)
Definition call {A} (e : Event) (answer : A) : M A :=
  log e ;;; ret answer.

(** ** The collaborators *)

(** libuv, as far as the file calls it.  The error codes are those of
    uv-errno.h, whose value depends on the platform; libuv numbers every
    error with a negative constant.  Functions of type [int] answer with an
    [int]. *)
Class Libuv : Type := {
  UV_EAGAIN : Z;
  UV_ENOSYS : Z;
  UV_EINVAL : Z;
  uv_errno_negative : UV_EAGAIN < 0 ∧ UV_ENOSYS < 0 ∧ UV_EINVAL < 0;
  uv_read_start : option uv_stream_t → Z;
  uv_read_stop : option uv_stream_t → Z;
  uv_is_closing : option uv_stream_t → bool;
  uv_shutdown : ShutdownWrap → option uv_stream_t → Z;
  uv_pipe_pending_count : option uv_stream_t → Z;
  uv_pipe_pending_type : option uv_stream_t → uv_handle_type;
  uv_accept : option uv_stream_t → uv_stream_t → Z;
  uv_stream_set_blocking : option uv_stream_t → bool → Z;
  uv_try_write : option uv_stream_t → list uv_buf_t → Z;
  uv_try_write_int : ∀ s bufs, INT_MIN ≤ uv_try_write s bufs ≤ INT_MAX;
  uv_write : WriteWrap → option uv_stream_t → list uv_buf_t → Z;
  uv_write2 :
    WriteWrap → option uv_stream_t → list uv_buf_t → uv_stream_t → Z
}.

(** A native wrap object of another handle kind, reduced to [UVHandle()]. *)
Record NativeWrap : Set := mk_native { UVHandle : uv_stream_t }.

(** V8 and the rest of node.  [Instantiate] answers [None] for an empty
    handle, [Unwrap] answers [None] for [nullptr], and [Object_Set] tells
    whether [Object::Set] produced a value ([false]: [Nothing]). *)
Class Node : Type := {
  Instantiate : WrapType → LibuvStreamWrap → option Object;
  Unwrap : Object → option NativeWrap;
  Object_Set : Object → string → Object → bool;
  EmitAlloc : Z → uv_buf_t
}.

(** Modelled from the spec: [env()->pending_handle_string()] is declared in
    env.h; the spec names the property [pendingHandle]. *)
Definition pending_handle_string : string := "pendingHandle".

(** Modelled from the spec: the macros [NODE_COUNT_NET_BYTES_RECV],
    [NODE_COUNT_PIPE_BYTES_RECV], [NODE_COUNT_NET_BYTES_SENT] and
    [NODE_COUNT_PIPE_BYTES_SENT] come from node_counters.h; the spec has
    them add the byte count to the counter of the handle kind. *)
Definition NODE_COUNT_NET_BYTES_RECV (bytes : Z) : M unit :=
  bump (λ c, mk_counters (net_bytes_recv c + bytes) (pipe_bytes_recv c)
                         (net_bytes_sent c) (pipe_bytes_sent c)).

Definition NODE_COUNT_PIPE_BYTES_RECV (bytes : Z) : M unit :=
  bump (λ c, mk_counters (net_bytes_recv c) (pipe_bytes_recv c + bytes)
                         (net_bytes_sent c) (pipe_bytes_sent c)).

Definition NODE_COUNT_NET_BYTES_SENT (bytes : Z) : M unit :=
  bump (λ c, mk_counters (net_bytes_recv c) (pipe_bytes_recv c)
                         (net_bytes_sent c + bytes) (pipe_bytes_sent c)).

Definition NODE_COUNT_PIPE_BYTES_SENT (bytes : Z) : M unit :=
  bump (λ c, mk_counters (net_bytes_recv c) (pipe_bytes_recv c)
                         (net_bytes_sent c) (pipe_bytes_sent c + bytes)).

(** Modelled from the spec: [is_tcp], [is_named_pipe] and
    [is_named_pipe_ipc] are inline members declared in stream_wrap.h; the
    spec attributes bytes by handle kind and calls an adapter IPC-capable
    when it is a pipe opened in handle-passing mode.  Each reads
    [stream()->type]. *)
Definition is_tcp (this : LibuvStreamWrap) : M bool :=
  s <- deref (stream this) ;; ret (bool_decide (type s = UV_TCP)).

Definition is_named_pipe (this : LibuvStreamWrap) : M bool :=
  s <- deref (stream this) ;; ret (bool_decide (type s = UV_NAMED_PIPE)).

Definition is_named_pipe_ipc (this : LibuvStreamWrap) : M bool :=
  s <- deref (stream this) ;;
  ret (bool_decide (type s = UV_NAMED_PIPE) && negb (ipc s =? 0)).

(** [object()]: the local handle of the persistent reference. *)
Definition object (this : LibuvStreamWrap) : M Object :=
  deref (persistent this).

(** The own properties of an object, and a property store. *)
Definition properties (σ : World) (o : Object) : gmap string Object :=
  default ∅ (heap σ !! o).

Definition stored (o : Object) (key : string) (v : Object) (σ : World)
  : World :=
  mk_world (trace σ) (<[o := <[key := v]> (properties σ o)]> (heap σ))
           (counters σ).

Definition store (o : Object) (key : string) (v : Object) : M unit :=
  λ σ, Returned tt (stored o key v σ).

(** ** The caller's buffer vector *)

(** [DoTryWrite] receives [uv_buf_t** bufs] and [size_t* count] and writes
    both back.  [storage] is the caller's array, [bufs] the position in it
    that [*bufs] points at, [count] the value of [*count]. *)
Record BufVec : Set := mk_vec {
  storage : list uv_buf_t;
  bufs : nat;
  count : nat
}.

(** The [count] buffers that start at position [bufs] of the array. *)
Definition view (v : BufVec) : list uv_buf_t :=
  take (count v) (drop (bufs v) (storage v)).

(** The vector lies inside its array, and every length is a [size_t]. *)
Definition in_bounds (v : BufVec) : Prop :=
  (bufs v + count v ≤ length (storage v))%nat.

Definition size_t_lens (l : list uv_buf_t) : Prop :=
  Forall (λ b, 0 ≤ len b ≤ SIZE_MAX) l.

(** Sum of the lengths, as a number. *)
Definition total_len (l : list uv_buf_t) : Z :=
  foldr (λ b acc, len b + acc) 0 l.

(** The effect of the "Slice" branch on one buffer. *)
Definition sliced (b : uv_buf_t) (written : Z) : uv_buf_t :=
  mk_buf (base b + written) (to_size_t (len b - written)).

(** What one JavaScript call hands to a bound method: the native object
    behind its receiver ([None]: unwrapping gives [nullptr]) and the
    arguments. *)
Record FunctionCallbackInfo : Set := mk_info {
  unwrapped : option LibuvStreamWrap;
  args : list Value
}.

(** ** The functions of stream_wrap.cc *)

Section stream_wrap.
Context `{uv : Libuv, node : Node}.

Definition IsAlive (this : LibuvStreamWrap) : bool := handle_alive this.

Definition IsClosing (this : LibuvStreamWrap) : bool :=
  uv_is_closing (stream this).

Definition IsIPCPipe (this : LibuvStreamWrap) : M bool :=
  is_named_pipe_ipc this.

Definition ReadStart (this : LibuvStreamWrap) : M Z :=
  call (Call_uv_read_start (stream this)) (uv_read_start (stream this)).

Definition ReadStop (this : LibuvStreamWrap) : M Z :=
  call (Call_uv_read_stop (stream this)) (uv_read_stop (stream this)).

Definition OnUvAlloc (this : LibuvStreamWrap) (suggested_size : Z)
  : M uv_buf_t :=
  call (Call_EmitAlloc suggested_size) (EmitAlloc suggested_size).

Definition EmitRead (nread : Z) (buf : uv_buf_t) : M unit :=
  log (Call_EmitRead nread buf).

(** [AcceptHandle<WrapType, UVType>]; the result is the escaped handle,
    [None] when it is empty. *)
Definition AcceptHandle (W : WrapType) (parent : LibuvStreamWrap)
  : M (option Object) :=
  wrap_obj <- call (Call_Instantiate W parent) (Instantiate W parent) ;;
  match wrap_obj with
  | None => ret None
  | Some o =>
      match Unwrap o with
      | None => ret None
      | Some wrap =>
          let handle := UVHandle wrap in
          r <- call (Call_uv_accept (stream parent) handle)
                    (uv_accept (stream parent) handle) ;;
          if r =? 0 then ret (Some o) else abort ABORT_uv_accept
      end
  end.

(** [object()->Set(context, key, v).FromJust()]. *)
Definition Set_FromJust (o : Object) (key : string) (v : Object) : M unit :=
  ok <- call (Call_Set o key v) (Object_Set o key v) ;;
  if ok : bool then store o key v else abort FromJust_Set.

Definition OnUvRead (this : LibuvStreamWrap) (nread : Z) (buf : uv_buf_t)
  : M unit :=
  is_ipc <- is_named_pipe_ipc this ;;
  type <-
    (if is_ipc : bool then
       pending <- call (Call_uv_pipe_pending_count (stream this))
                       (uv_pipe_pending_count (stream this)) ;;
       if pending >? 0 then
         call (Call_uv_pipe_pending_type (stream this))
              (uv_pipe_pending_type (stream this))
       else ret UV_UNKNOWN_HANDLE
     else ret UV_UNKNOWN_HANDLE) ;;
  CHECK CHECK_persistent (bool_decide (persistent this ≠ None)) ;;;
  (if nread >? 0 then
     (tcp <- is_tcp this ;;
      if tcp : bool then NODE_COUNT_NET_BYTES_RECV nread
      else
        pipe <- is_named_pipe this ;;
        if pipe : bool then NODE_COUNT_PIPE_BYTES_RECV nread else ret tt) ;;;
     pending_obj <-
       (if decide (type = UV_TCP) then AcceptHandle TCPWrap this
        else if decide (type = UV_NAMED_PIPE) then AcceptHandle PipeWrap this
        else if decide (type = UV_UDP) then AcceptHandle UDPWrap this
        else
          CHECK CHECK_pending_type (bool_decide (type = UV_UNKNOWN_HANDLE)) ;;;
          ret None) ;;
     match pending_obj with
     | Some o =>
         self <- object this ;;
         Set_FromJust self pending_handle_string o
     | None => ret tt
     end
   else ret tt) ;;;
  EmitRead nread buf.

(** The value handed to [info.GetReturnValue().Set]; [None] when the
    function returns without setting one. *)
Definition GetWriteQueueSize (info : FunctionCallbackInfo) : M (option Z) :=
  match unwrapped info with
  | None => ret None
  | Some wrap =>
      match stream wrap with
      | None => ret (Some 0)
      | Some s =>
          let write_queue_size := to_uint32_t (write_queue_size s) in
          ret (Some write_queue_size)
      end
  end.

Definition SetBlocking (info : FunctionCallbackInfo) : M (option Z) :=
  match unwrapped info with
  | None => ret None
  | Some wrap =>
      CHECK CHECK_args_length (bool_decide (0 < length (args info))%nat) ;;;
      if negb (IsAlive wrap) then ret (Some UV_EINVAL)
      else
        arg0 <- deref (args info !! 0%nat) ;;
        let enable := IsTrue arg0 in
        r <- call (Call_uv_stream_set_blocking (stream wrap) enable)
                  (uv_stream_set_blocking (stream wrap) enable) ;;
        ret (Some r)
  end.

Definition DoShutdown (this : LibuvStreamWrap) (req_wrap : ShutdownWrap)
  : M Z :=
  err <- call (Call_uv_shutdown req_wrap (stream this))
              (uv_shutdown req_wrap (stream this)) ;;
  log (Call_Dispatched_shutdown req_wrap) ;;;
  ret err.

(** [from_req] gives back the wrap that owns the request, or [nullptr]. *)
Definition AfterUvShutdown (req_wrap : option ShutdownWrap) (status : Z)
  : M unit :=
  CHECK CHECK_req_wrap (bool_decide (req_wrap ≠ None)) ;;;
  w <- deref req_wrap ;;
  log (Call_Done_shutdown w status).

(** The loop of [DoTryWrite] over [vbufs], [vcount] and [written].  The
    result is the array with the final [vbufs] and [vcount]; [None] when
    [vbufs[0]] is read outside the array. *)
Fixpoint slice_off (arr : list uv_buf_t) (vbufs vcount : nat) (written : Z)
  : option BufVec :=
  match vcount with
  | O => Some (mk_vec arr vbufs O)
  | S vcount' =>
      match arr !! vbufs with
      | None => None
      | Some b =>
          if len b >? written then
            Some (mk_vec (<[vbufs := sliced b written]> arr) vbufs vcount)
          else
            slice_off arr (S vbufs) vcount' (to_size_t (written - len b))
      end
  end.

(** The result pairs the returned [int] with the values written back
    through [bufs] and [count]. *)
Definition DoTryWrite (this : LibuvStreamWrap) (v : BufVec)
  : M (Z * BufVec) :=
  err <- call (Call_uv_try_write (stream this) (view v))
              (uv_try_write (stream this) (view v)) ;;
  if bool_decide (err = UV_ENOSYS) || bool_decide (err = UV_EAGAIN) then
    ret (0, v)
  else if err <? 0 then ret (err, v)
  else
    let written := to_size_t err in
    v' <- deref (slice_off (storage v) (bufs v) (count v) written) ;;
    ret (0, v').

(** [bytes] after the summing loop of [DoWrite]. *)
Definition sum_bytes (bufs : list uv_buf_t) : Z :=
  fold_left (λ bytes b, to_size_t (bytes + len b)) bufs 0.

(** [bufs] holds the [count] buffers; [send_handle] is [None] for
    [nullptr]. *)
Definition DoWrite (this : LibuvStreamWrap) (w : WriteWrap)
    (bufs : list uv_buf_t) (send_handle : option uv_stream_t) : M Z :=
  r <- match send_handle with
       | None =>
           call (Call_uv_write w (stream this) bufs)
                (uv_write w (stream this) bufs)
       | Some h =>
           call (Call_uv_write2 w (stream this) bufs h)
                (uv_write2 w (stream this) bufs h)
       end ;;
  (if r =? 0 then
     let bytes := sum_bytes bufs in
     s <- deref (stream this) ;;
     if decide (type s = UV_TCP) then NODE_COUNT_NET_BYTES_SENT bytes
     else if decide (type s = UV_NAMED_PIPE) then
       NODE_COUNT_PIPE_BYTES_SENT bytes
     else ret tt
   else ret tt) ;;;
  log (Call_Dispatched_write w) ;;;
  ret r.

Definition AfterUvWrite (req_wrap : option WriteWrap) (status : Z)
  : M unit :=
  CHECK CHECK_req_wrap (bool_decide (req_wrap ≠ None)) ;;;
  w <- deref req_wrap ;;
  log (Call_Done_write w status).

End stream_wrap.

(** ** Vocabulary of the statements *)

(** [wp m Q R σ]: run from [σ], [m] has a defined behaviour, and it either
    returns with [Q] or terminates the process with [R]. *)
Definition wp {A} (m : M A) (Q : A → World → Prop)
    (R : AbortSite → World → Prop) (σ : World) : Prop :=
  match m σ with
  | Returned a σ' => Q a σ'
  | Aborted site σ' => R site σ'
  | NoBehaviour => False
  end.

(** The handle kind each wrap class is accepted for. *)
Definition handle_kind (W : WrapType) : uv_handle_type :=
  match W with
  | TCPWrap => UV_TCP
  | PipeWrap => UV_NAMED_PIPE
  | UDPWrap => UV_UDP
  end.

(** Calls that deliver a read, stop reading or close the handle. *)
Definition touches_reading (e : Event) : bool :=
  match e with
  | Call_EmitRead _ _ | Call_uv_read_stop _ | Call_uv_close _ => true
  | _ => false
  end.

(** Calls that build, accept or publish a transferred handle. *)
Definition accepts_handle (e : Event) : bool :=
  match e with
  | Call_Instantiate _ _ | Call_uv_accept _ _ | Call_Set _ _ _ => true
  | _ => false
  end.

(** From [σ] to [σ'] the trace only grew, and by no call that [bad]
    singles out. *)
Definition avoids (bad : Event → bool) (σ σ' : World) : Prop :=
  ∃ added : list Event,
    trace σ' = trace σ ++ added ∧ Forall (λ e, bad e = false) added.

(** The loop's report of a pending handle is accurate: whenever it counts
    a pending handle on the stream, accepting from the stream succeeds. *)
Definition accurate_pending_report `{uv : Libuv} (this : LibuvStreamWrap)
  : Prop :=
  0 < uv_pipe_pending_count (stream this) →
  ∀ client : uv_stream_t, uv_accept (stream this) client = 0.

(** What [DoWrite] asks of libuv, and the answer, by the presence of a
    handle to send. *)
Definition dispatch_call (this : LibuvStreamWrap)
    (w : WriteWrap) (bufs : list uv_buf_t) (send_handle : option uv_stream_t)
  : Event :=
  match send_handle with
  | None => Call_uv_write w (stream this) bufs
  | Some h => Call_uv_write2 w (stream this) bufs h
  end.

Definition dispatch_status `{uv : Libuv} (this : LibuvStreamWrap)
    (w : WriteWrap) (bufs : list uv_buf_t) (send_handle : option uv_stream_t)
  : Z :=
  match send_handle with
  | None => uv_write w (stream this) bufs
  | Some h => uv_write2 w (stream this) bufs h
  end.

(** The four pending kinds [OnUvRead] provides for. *)
Definition expected_pending (t : uv_handle_type) : Prop :=
  t = UV_TCP ∨ t = UV_NAMED_PIPE ∨ t = UV_UDP ∨ t = UV_UNKNOWN_HANDLE.

(** ** Scripted collaborators

    Fixed answers for every external call, to run the functions on concrete
    inputs.  The error codes are those of Linux. *)

Record Script : Set := mk_script {
  on_try_write : Z;
  on_write : Z;
  on_write2 : Z;
  on_accept : Z;
  on_pending_count : Z;
  on_pending_type : uv_handle_type;
  on_set_blocking : Z;
  on_instantiate : option Object;
  on_unwrap : option NativeWrap;
  on_set : bool
}.

Definition clamp_int (z : Z) : Z := Z.max INT_MIN (Z.min INT_MAX z).

Definition scripted_uv (sc : Script) : Libuv := {|
  UV_EAGAIN := -11;
  UV_ENOSYS := -38;
  UV_EINVAL := -22;
  uv_errno_negative := ltac:(lia);
  uv_read_start := λ _, 0;
  uv_read_stop := λ _, 0;
  uv_is_closing := λ _, false;
  uv_shutdown := λ _ _, 0;
  uv_pipe_pending_count := λ _, on_pending_count sc;
  uv_pipe_pending_type := λ _, on_pending_type sc;
  uv_accept := λ _ _, on_accept sc;
  uv_stream_set_blocking := λ _ _, on_set_blocking sc;
  uv_try_write := λ _ _, clamp_int (on_try_write sc);
  uv_try_write_int := λ _ _, ltac:(unfold clamp_int, INT_MIN, INT_MAX; lia);
  uv_write := λ _ _ _, on_write sc;
  uv_write2 := λ _ _ _ _, on_write2 sc
|}.

Definition scripted_node (sc : Script) : Node := {|
  Instantiate := λ _ _, on_instantiate sc;
  Unwrap := λ _, on_unwrap sc;
  Object_Set := λ _ _ _, on_set sc;
  EmitAlloc := λ n, mk_buf 0 n
|}.

(** The script in which every call succeeds and nothing is pending, and
    its variants by what [uv_try_write] reports. *)
Definition calm : Script :=
  mk_script 0 0 0 0 0 UV_UNKNOWN_HANDLE 0 None None true.

Definition try_write_reports (err : Z) : Script :=
  mk_script err 0 0 0 0 UV_UNKNOWN_HANDLE 0 None None true.

(** One handle of TCP kind is pending on the pipe; [uv_accept] answers
    [accept] and instantiating the wrapper gives [inst], whose native wrap
    owns the handle 7. *)
Definition pending_tcp (accept : Z) (inst : option Object) : Script :=
  mk_script 0 0 0 accept 1 UV_TCP 0 inst
            (Some (mk_native (mk_stream 7 UV_TCP 0 0))) true.

(** [uv_write2] answers [status]. *)
Definition write2_answers (status : Z) : Script :=
  mk_script 0 0 status 0 0 UV_UNKNOWN_HANDLE 0 None None true.

(** A TCP adapter and an IPC pipe adapter, both alive and referenced from
    JavaScript by object 1. *)
Definition tcp_wrap : LibuvStreamWrap :=
  mk_wrap (Some (mk_stream 1 UV_TCP 0 0)) (Some 1%nat) true.

Definition ipc_wrap : LibuvStreamWrap :=
  mk_wrap (Some (mk_stream 1 UV_NAMED_PIPE 1 0)) (Some 1%nat) true.


Definition queued_wrap (queued : Z) : LibuvStreamWrap :=
  mk_wrap (Some (mk_stream 1 UV_TCP 0 queued)) (Some 1%nat) true.

(** A TCP handle to send, and a read buffer. *)
Definition sent_handle : uv_stream_t := mk_stream 9 UV_TCP 0 0.

Definition read_buf : uv_buf_t := mk_buf 4096 65536.

(** A world in which nothing has happened yet. *)
Definition quiet : World := mk_world [] ∅ (mk_counters 0 0 0 0).

(** The buffers "ab" and "cde" of the end-to-end scenario, at the addresses
    [a1] and [a2]. *)
Definition ab_cde (a1 a2 : Z) : BufVec :=
  mk_vec [mk_buf a1 2; mk_buf a2 3] 0 2.

(** ** Further vocabulary and inputs *)

(** [b'] is what is left of [b] once some of its first bytes are gone: it
    starts inside [b] and ends where [b] ends. *)
Definition suffix_of (b' b : uv_buf_t) : Prop :=
  base b ≤ base b' ∧ 0 ≤ len b' ∧ base b' + len b' = base b + len b.

(** A TTY adapter, and a TCP adapter whose persistent handle was reset. *)
Definition tty_wrap : LibuvStreamWrap :=
  mk_wrap (Some (mk_stream 1 UV_TTY 0 0)) (Some 1%nat) true.

Definition reset_wrap : LibuvStreamWrap :=
  mk_wrap (Some (mk_stream 1 UV_TCP 0 0)) None false.

(** A TCP handle is pending and the wrapper is instantiated as object 7,
    which has no native wrap behind it. *)
Definition pending_unwrappable : Script :=
  mk_script 0 0 0 0 1 UV_TCP 0 (Some 7%nat) None true.

(** * Properties *)

(** Expose the outcome of a computation: unfold the monad, keep the
    functions of the model folded. *)
Ltac run_monad :=
  cbv beta iota delta [bind call log ret abort deref CHECK].

(** ** Arithmetic and list facts *)

Lemma to_size_t_id (z : Z) : 0 ≤ z ≤ SIZE_MAX → to_size_t z = z.
Proof. intros ?. unfold to_size_t, SIZE_MAX in *. apply Z.mod_small. lia. Qed.

Lemma to_uint32_t_id (z : Z) : 0 ≤ z ≤ UINT32_MAX → to_uint32_t z = z.
Proof.
  intros ?. unfold to_uint32_t, UINT32_MAX in *. apply Z.mod_small. lia.
Qed.

Lemma total_len_cons (b : uv_buf_t) (l : list uv_buf_t) :
  total_len (b :: l) = len b + total_len l.
Proof. reflexivity. Qed.

Lemma total_len_app (l1 l2 : list uv_buf_t) :
  total_len (l1 ++ l2) = total_len l1 + total_len l2.
Proof.
  induction l1 as [|b l1 IH]; [simpl; lia|].
  rewrite <- app_comm_cons, !total_len_cons, IH. lia.
Qed.

Lemma total_len_nonneg (l : list uv_buf_t) : size_t_lens l → 0 ≤ total_len l.
Proof.
  induction 1 as [|b l [Hb _] _ IH]; [simpl; lia|].
  rewrite total_len_cons. lia.
Qed.

(** The vector as its first buffer followed by the shorter vector. *)
Lemma view_step (arr : list uv_buf_t) (p n : nat) (b : uv_buf_t) :
  arr !! p = Some b →
  take (S n) (drop p arr) = b :: take n (drop (S p) arr).
Proof. intros Hb. by rewrite (drop_S _ _ _ Hb). Qed.

(** ** The slicing loop *)

(** The loop consumes [k] whole buffers and [r] bytes of the next one. *)
Lemma slice_off_sound (arr : list uv_buf_t) (n : nat) :
  ∀ (p : nat) (W : Z),
    (p + n ≤ length arr)%nat →
    size_t_lens (take n (drop p arr)) →
    0 ≤ W ≤ total_len (take n (drop p arr)) →
    W ≤ SIZE_MAX →
    ∃ (k : nat) (r : Z),
      (k ≤ n)%nat ∧ 0 ≤ r ∧
      W = total_len (take k (take n (drop p arr))) + r ∧
      match drop k (take n (drop p arr)) with
      | [] =>
          r = 0 ∧
          slice_off arr p n W = Some (mk_vec arr (p + k) (n - k))
      | b :: _ =>
          r < len b ∧
          slice_off arr p n W =
            Some (mk_vec (<[(p + k)%nat := mk_buf (base b + r) (len b - r)]> arr)
                         (p + k) (n - k))
      end.
Proof.
  induction n as [|n IH]; intros p W Hin Hlens HW Hmax.
  - exists 0%nat, 0. simpl in *. rewrite Nat.add_0_r.
    repeat split; try lia; reflexivity.
  - destruct (lookup_lt_is_Some_2 arr p) as [b Hb]; [lia|].
    rewrite (view_step _ _ _ _ Hb) in *.
    apply Forall_cons in Hlens as [Hlb Hrest].
    rewrite total_len_cons in HW. simpl slice_off. rewrite Hb.
    destruct (len b >? W) eqn:Hcmp.
    + apply Z.gtb_lt in Hcmp. exists 0%nat, W.
      rewrite Nat.add_0_r. simpl. unfold sliced.
      rewrite to_size_t_id by lia. repeat split; try lia; reflexivity.
    + assert (len b ≤ W) by (destruct (Z.gtb_spec (len b) W); [done | lia]).
      rewrite to_size_t_id by lia.
      destruct (IH (S p) (W - len b)) as (k & r & Hk & Hr & Hsum & Hres);
        [lia | done | lia | lia |].
      exists (S k), r. simpl take. simpl drop. rewrite total_len_cons.
      replace (p + S k)%nat with (S p + k)%nat by lia.
      replace (S n - S k)%nat with (n - k)%nat by lia.
      repeat split; try lia. exact Hres.
Qed.

(** In bounds the loop never reads outside the array. *)
Lemma slice_off_in_bounds (arr : list uv_buf_t) (n : nat) :
  ∀ (p : nat) (W : Z),
    (p + n ≤ length arr)%nat → is_Some (slice_off arr p n W).
Proof.
  induction n as [|n IH]; intros p W Hin; simpl; [by eexists|].
  destruct (lookup_lt_is_Some_2 arr p) as [b ->]; [lia|].
  destruct (len b >? W); [by eexists|]. apply IH. lia.
Qed.

(** The view of an array after the front buffer of a suffix is replaced. *)
Lemma view_insert_front (arr : list uv_buf_t) (p n k : nat)
    (b b' : uv_buf_t) (rest : list uv_buf_t) :
  drop k (take n (drop p arr)) = b :: rest →
  take (n - k) (drop (p + k) (<[(p + k)%nat := b']> arr)) = b' :: rest.
Proof.
  intros Hd. rewrite skipn_firstn_comm, drop_drop in Hd.
  rewrite drop_insert_ge, Nat.sub_diag by lia.
  destruct (n - k)%nat as [|m] eqn:Hm; [done|].
  rewrite take_insert_lt by lia. by rewrite Hd.
Qed.

(** ** DoTryWrite *)

Section DoTryWrite_properties.
Context `{uv : Libuv}.

(** A byte count reported by [uv_try_write] is neither error code, is not
    negative as an [int], and converts to [size_t] unchanged. *)
Lemma written_count (s : option uv_stream_t) (l : list uv_buf_t) :
  0 ≤ uv_try_write s l →
  bool_decide (uv_try_write s l = UV_ENOSYS)
    || bool_decide (uv_try_write s l = UV_EAGAIN) = false
  ∧ (uv_try_write s l <? 0) = false
  ∧ to_size_t (uv_try_write s l) = uv_try_write s l.
Proof.
  intros Hpos. pose proof uv_errno_negative as (Hagain & Hnosys & _).
  pose proof (uv_try_write_int s l) as [_ Hmax].
  rewrite !bool_decide_eq_false_2 by lia. split; [done|].
  split; [by apply Z.ltb_ge|].
  apply to_size_t_id. unfold INT_MAX, SIZE_MAX in *. lia.
Qed.

(** After a byte count the function is its slicing loop. *)
Lemma DoTryWrite_written (this : LibuvStreamWrap) (v : BufVec) (σ : World) :
  0 ≤ uv_try_write (stream this) (view v) →
  DoTryWrite this v σ =
    match slice_off (storage v) (bufs v) (count v)
                    (uv_try_write (stream this) (view v)) with
    | Some v' =>
        Returned (0, v')
                 (logged (Call_uv_try_write (stream this) (view v)) σ)
    | None => NoBehaviour
    end.
Proof.
  intros Hpos.
  destruct (written_count (stream this) (view v) Hpos)
    as (Herr & Hneg & Hconv).
  unfold DoTryWrite. run_monad.
  rewrite Herr, Hneg, Hconv. by destruct (slice_off _ _ _ _).
Qed.

Lemma DoTryWrite_slices (this : LibuvStreamWrap) (v : BufVec) (σ : World) :
  in_bounds v → size_t_lens (view v) →
  0 ≤ uv_try_write (stream this) (view v) ≤ total_len (view v) →
  ∃ (v' : BufVec) (k : nat) (r : Z),
    DoTryWrite this v σ =
      Returned (0, v') (logged (Call_uv_try_write (stream this) (view v)) σ)
    ∧ (k ≤ count v)%nat
    ∧ bufs v' = (bufs v + k)%nat
    ∧ count v' = (count v - k)%nat
    ∧ 0 ≤ r
    ∧ uv_try_write (stream this) (view v) = total_len (take k (view v)) + r
    ∧ match drop k (view v) with
      | [] => r = 0 ∧ view v' = []
      | b :: rest =>
          r < len b ∧ view v' = mk_buf (base b + r) (len b - r) :: rest
      end
    ∧ total_len (view v') =
        total_len (view v) - uv_try_write (stream this) (view v).
Proof.
  intros Hin Hlens HW.
  rewrite DoTryWrite_written by lia.
  pose proof (uv_try_write_int (stream this) (view v)) as [_ Hmax].
  destruct (slice_off_sound (storage v) (count v) (bufs v)
              (uv_try_write (stream this) (view v)))
    as (k & r & Hk & Hr & Hsum & Hres);
    [done | done | done | unfold INT_MAX, SIZE_MAX in *; lia |].
  fold (view v) in Hsum, Hres.
  pose proof (take_drop k (view v)) as Hsplit.
  apply (f_equal total_len) in Hsplit. rewrite total_len_app in Hsplit.
  destruct (drop k (view v)) as [|b rest] eqn:Hd.
  - destruct Hres as [-> ->].
    exists (mk_vec (storage v) (bufs v + k) (count v - k)), k, 0.
    assert (view (mk_vec (storage v) (bufs v + k) (count v - k)) = [])
      as Hview.
    { apply (f_equal length) in Hd. rewrite length_drop in Hd.
      unfold view in *. rewrite length_take, length_drop in Hd.
      unfold in_bounds in Hin. cbn [storage bufs count length] in *.
      replace (count v - k)%nat with 0%nat by lia. done. }
    rewrite Hview, Hd. cbn [bufs count total_len foldr] in *.
    repeat split; try lia; done.
  - destruct Hres as [Hlt ->].
    eexists _, k, r. split; [reflexivity|].
    assert (view (mk_vec (<[(bufs v + k)%nat :=
                             mk_buf (base b + r) (len b - r)]> (storage v))
                         (bufs v + k) (count v - k))
            = mk_buf (base b + r) (len b - r) :: rest) as Hview.
    { unfold view in *. cbn [storage bufs count].
      by eapply view_insert_front. }
    rewrite Hview, Hd. rewrite !total_len_cons in *.
    cbn [bufs count base len].
    repeat split; try lia; done.
Qed.

(** C1, amended.  When [uv_try_write] reports [W] bytes written with
    [0 ≤ W ≤ L], [L] the total length of the buffers, [DoTryWrite] returns
    0 and leaves [L - W] bytes: the first [k] buffers, whose lengths sum
    to [W - r], are dropped from the front ([*bufs] advances by [k],
    [*count] shrinks by [k]); the buffer that is then in front has its
    base advanced by the remainder [r] and its length reduced by [r],
    with [r] smaller than its length; the buffers after it are kept as
    they were, in order.  For the buffers of lengths 2 and 3 and 4 bytes
    written, one buffer remains, of length 1, at offset 2 into the second
    buffer. *)
Theorem DoTryWrite_partial_write_slicing :
  (∀ (this : LibuvStreamWrap) (v : BufVec) (σ : World),
     in_bounds v → size_t_lens (view v) →
     0 ≤ uv_try_write (stream this) (view v) ≤ total_len (view v) →
     ∃ (v' : BufVec) (k : nat) (r : Z),
       DoTryWrite this v σ =
         Returned (0, v')
                  (logged (Call_uv_try_write (stream this) (view v)) σ)
       ∧ (k ≤ count v)%nat
       ∧ bufs v' = (bufs v + k)%nat
       ∧ count v' = (count v - k)%nat
       ∧ 0 ≤ r
       ∧ uv_try_write (stream this) (view v)
           = total_len (take k (view v)) + r
       ∧ match drop k (view v) with
         | [] => r = 0 ∧ view v' = []
         | b :: rest =>
             r < len b ∧ view v' = mk_buf (base b + r) (len b - r) :: rest
         end
       ∧ total_len (view v') =
           total_len (view v) - uv_try_write (stream this) (view v))
  ∧ (∀ (this : LibuvStreamWrap) (σ : World) (a1 a2 : Z),
       uv_try_write (stream this) (view (ab_cde a1 a2)) = 4 →
       ∃ v' : BufVec,
         DoTryWrite this (ab_cde a1 a2) σ =
           Returned (0, v')
             (logged (Call_uv_try_write (stream this)
                                        (view (ab_cde a1 a2))) σ)
         ∧ view v' = [mk_buf (a2 + 2) 1]).
Proof.
  split; [exact DoTryWrite_slices|].
  intros this σ a1 a2 H4. rewrite DoTryWrite_written by lia.
  rewrite H4. eexists. split; [reflexivity|].
  unfold view, sliced. simpl. reflexivity.
Qed.

(** C4.  When [uv_try_write] reports [UV_ENOSYS] or [UV_EAGAIN],
    [DoTryWrite] returns 0 and hands back the pointer, the count and the
    array as they were.  On any other negative code it returns that code,
    again without touching the buffers; on a byte count it returns 0.  It
    never returns a positive number. *)
Theorem DoTryWrite_zero_progress
    (this : LibuvStreamWrap) (v : BufVec) (σ : World) :
  let err := uv_try_write (stream this) (view v) in
  let σ' := logged (Call_uv_try_write (stream this) (view v)) σ in
  (err = UV_ENOSYS ∨ err = UV_EAGAIN →
     DoTryWrite this v σ = Returned (0, v) σ')
  ∧ (err ≠ UV_ENOSYS → err ≠ UV_EAGAIN → err < 0 →
       DoTryWrite this v σ = Returned (err, v) σ')
  ∧ (0 ≤ err → in_bounds v →
       ∃ v' : BufVec, DoTryWrite this v σ = Returned (0, v') σ')
  ∧ (∀ (r : Z) (v' : BufVec) (σ'' : World),
       DoTryWrite this v σ = Returned (r, v') σ'' → r ≤ 0).
Proof.
  intros err σ'. subst err σ'. repeat split.
  - intros Herr. unfold DoTryWrite. run_monad.
    destruct Herr as [-> | ->].
    + by rewrite bool_decide_eq_true_2.
    + rewrite (bool_decide_eq_true_2 (UV_EAGAIN = UV_EAGAIN)) by done.
      by rewrite orb_true_r.
  - intros Hnosys Hagain Hneg. unfold DoTryWrite. run_monad.
    rewrite !bool_decide_eq_false_2 by done.
    by rewrite (proj2 (Z.ltb_lt _ _)) by done.
  - intros Hpos Hin. rewrite DoTryWrite_written by done.
    destruct (slice_off_in_bounds (storage v) (count v) (bufs v)
                (uv_try_write (stream this) (view v)) Hin) as [v' ->].
    by exists v'.
  - intros r v' σ''. unfold DoTryWrite. run_monad.
    destruct (_ || _); [intros [= <- _ _]; lia|].
    destruct (_ <? 0) eqn:Hneg; [intros [= <- _ _]; lia|].
    destruct (slice_off _ _ _ _); [intros [= <- _ _]; lia | done].
Qed.

End DoTryWrite_properties.

(** ** Rules for [wp] *)

Section wp_rules.
Context {A B : Type}.
Implicit Types (Q : A → World → Prop) (R : AbortSite → World → Prop).

Lemma wp_ret (a : A) Q R σ : Q a σ → wp (ret a) Q R σ.
Proof. done. Qed.

Lemma wp_abort (site : AbortSite) Q R σ : R site σ → wp (abort site) Q R σ.
Proof. done. Qed.

Lemma wp_deref (p : option A) (a : A) Q R σ :
  p = Some a → Q a σ → wp (deref p) Q R σ.
Proof. by intros ->. Qed.

Lemma wp_call (e : Event) (a : A) Q R σ :
  Q a (logged e σ) → wp (call e a) Q R σ.
Proof. done. Qed.

Lemma wp_bind (m : M A) (k : A → M B) (Q' : B → World → Prop) R σ :
  wp m (λ a σ', wp (k a) Q' R σ') R σ → wp (bind m k) Q' R σ.
Proof. unfold wp, bind. by destruct (m σ). Qed.

(** What a [wp] with exact postconditions says about the outcome. *)
Lemma wp_returned (m : M A) (a : A) (σ σ' : World) :
  wp m (λ a' σ'', a' = a ∧ σ'' = σ') (λ _ _, False) σ →
  m σ = Returned a σ'.
Proof. unfold wp. destruct (m σ); [by intros [-> ->] | done | done]. Qed.

Lemma wp_returns (m : M A) Q σ :
  wp m Q (λ _ _, False) σ → ∃ a σ', m σ = Returned a σ' ∧ Q a σ'.
Proof. unfold wp. destruct (m σ) as [a σ'| |]; [by exists a, σ' | done..]. Qed.

Lemma wp_aborts (m : M A) R σ :
  wp m (λ _ _, False) R σ → ∃ site σ', m σ = Aborted site σ' ∧ R site σ'.
Proof.
  unfold wp. destruct (m σ) as [|site σ'|]; [done | by exists site, σ' | done].
Qed.

Lemma wp_aborted (m : M A) (site : AbortSite) (σ σ' : World) :
  wp m (λ _ _, False) (λ site' σ'', site' = site ∧ σ'' = σ') σ →
  m σ = Aborted site σ'.
Proof. unfold wp. destruct (m σ); [done | by intros [-> ->] | done]. Qed.

End wp_rules.

Lemma wp_log (e : Event) (Q : unit → World → Prop) R σ :
  Q tt (logged e σ) → wp (log e) Q R σ.
Proof. done. Qed.

Lemma wp_CHECK (site : AbortSite) (b : bool) (Q : unit → World → Prop) R σ :
  (b = true → Q tt σ) → (b = false → R site σ) → wp (CHECK site b) Q R σ.
Proof. destruct b; unfold CHECK, wp; simpl; auto. Qed.

Lemma wp_store (o : Object) (key : string) (v : Object)
    (Q : unit → World → Prop) R σ :
  Q tt (stored o key v σ) → wp (store o key v) Q R σ.
Proof. done. Qed.

Lemma wp_bump (f : Counters → Counters) (Q : unit → World → Prop) R σ :
  Q tt (counted f σ) → wp (bump f) Q R σ.
Proof. done. Qed.

(** One step of symbolic execution. *)
Ltac wp_step :=
  cbv beta;
  lazymatch goal with
  | |- wp (bind _ _) _ _ _ => apply wp_bind
  | |- wp (ret _) _ _ _ => apply wp_ret
  | |- wp (abort _) _ _ _ => apply wp_abort
  | |- wp (log _) _ _ _ => apply wp_log
  | |- wp (call _ _) _ _ _ => apply wp_call
  | |- wp (store _ _ _) _ _ _ => apply wp_store
  | |- wp (bump _) _ _ _ => apply wp_bump
  | |- wp (CHECK _ _) _ _ _ => apply wp_CHECK; intros ?
  | |- wp (deref _) _ _ _ =>
      eapply wp_deref; [first [eassumption | reflexivity]|]
  | |- wp (if ?c then _ else _) _ _ _ => destruct c eqn:?
  | |- wp (match ?x with _ => _ end) _ _ _ => destruct x eqn:?
  end.

(** Turn the boolean tests met on the way into propositions. *)
Ltac reflect_tests :=
  repeat match goal with
  | H : _ && _ = true |- _ => apply andb_true_iff in H; destruct H
  | H : _ && _ = false |- _ => apply andb_false_iff in H; destruct H
  | H : negb _ = true |- _ => apply negb_true_iff in H
  | H : negb _ = false |- _ => apply negb_false_iff in H
  | H : bool_decide _ = true |- _ => apply bool_decide_eq_true_1 in H
  | H : bool_decide _ = false |- _ => apply bool_decide_eq_false_1 in H
  | H : (_ >? _) = true |- _ => apply Z.gtb_lt in H
  | H : (_ >? _) = false |- _ => rewrite Z.gtb_ltb in H; apply Z.ltb_ge in H
  | H : (_ =? _) = true |- _ => apply Z.eqb_eq in H
  | H : (_ =? _) = false |- _ => apply Z.eqb_neq in H
  | H : (_ <? _) = true |- _ => apply Z.ltb_lt in H
  | H : (_ <? _) = false |- _ => apply Z.ltb_ge in H
  end.

(** A branch the hypotheses rule out. *)
Ltac absurd_branch :=
  exfalso; simplify_eq; reflect_tests;
  first
    [ congruence
    | lia
    | match goal with
      | H : ¬ (_ ≠ None) |- _ => apply H; congruence
      end ].

(** ** Growth of the trace *)

Create HintDb trace discriminated.

Lemma avoids_refl (bad : Event → bool) (σ : World) : avoids bad σ σ.
Proof. exists []. by rewrite app_nil_r. Qed.

Lemma avoids_logged (bad : Event → bool) (e : Event) (σ σ' : World) :
  bad e = false → avoids bad σ σ' → avoids bad σ (logged e σ').
Proof.
  intros He (added & Htr & Hall). exists (added ++ [e]). simpl.
  rewrite Htr, app_assoc. split; [done|].
  apply Forall_app. by repeat constructor.
Qed.

Lemma avoids_counted (bad : Event → bool) f (σ σ' : World) :
  avoids bad σ σ' → avoids bad σ (counted f σ').
Proof. done. Qed.

Lemma avoids_stored (bad : Event → bool) o key v (σ σ' : World) :
  avoids bad σ σ' → avoids bad σ (stored o key v σ').
Proof. done. Qed.

#[local] Hint Resolve avoids_refl avoids_logged avoids_counted
  avoids_stored : trace.

(** A call logged last is the last one of the trace. *)
Lemma logged_last (bad : Event → bool) (e : Event) (σ σ' : World) :
  avoids bad σ σ' →
  ∃ added : list Event,
    trace (logged e σ') = trace σ ++ added ++ [e]
    ∧ Forall (λ e', bad e' = false) added.
Proof.
  intros (added & Htr & Hall). exists added. simpl.
  by rewrite Htr, app_assoc.
Qed.

(** ** Properties of objects *)

Lemma properties_logged (e : Event) (σ : World) (o : Object) :
  properties (logged e σ) o = properties σ o.
Proof. reflexivity. Qed.

Lemma properties_stored (o : Object) (key : string) (v : Object) (σ : World) :
  properties (stored o key v σ) o !! key = Some v.
Proof.
  unfold properties, stored. cbn [heap].
  rewrite lookup_insert_eq. apply lookup_insert_eq.
Qed.

(** ** OnUvRead *)

Section OnUvRead_properties.
Context `{uv : Libuv, node : Node}.

(** Unfold [OnUvRead] and what it calls down to the monad. *)
Ltac open_read :=
  unfold OnUvRead, AcceptHandle, Set_FromJust, EmitRead, object,
    is_named_pipe_ipc, is_named_pipe, is_tcp,
    NODE_COUNT_NET_BYTES_RECV, NODE_COUNT_PIPE_BYTES_RECV.

(** C6, amended.  Unless one of its fatal checks fires, [OnUvRead] ends by
    handing exactly the [nread] and [buf] it received to [EmitRead], once,
    whatever the sign of [nread], and calls neither [uv_read_stop] nor
    [uv_close].  The fatal checks: the persistent handle is empty; and,
    for a positive [nread] only, [uv_accept] fails, the pending type is
    not one of the four provided for, or the property store yields
    nothing.  So a zero or negative [nread] is always forwarded when the
    persistent handle is there. *)
Theorem OnUvRead_forwards_read
    (this : LibuvStreamWrap) (nread : Z) (buf : uv_buf_t) (σ : World)
    (s : uv_stream_t) :
  stream this = Some s →
  match OnUvRead this nread buf σ with
  | Returned _ σ' =>
      ∃ added : list Event,
        trace σ' = trace σ ++ added ++ [Call_EmitRead nread buf]
        ∧ Forall (λ e, touches_reading e = false) added
  | Aborted site σ' =>
      avoids touches_reading σ σ'
      ∧ match site with
        | CHECK_persistent => persistent this = None
        | ABORT_uv_accept =>
            0 < nread ∧ ∃ client, uv_accept (stream this) client ≠ 0
        | CHECK_pending_type =>
            0 < nread
            ∧ ¬ expected_pending (uv_pipe_pending_type (stream this))
        | FromJust_Set =>
            0 < nread
            ∧ ∃ self o, Object_Set self pending_handle_string o = false
        | _ => False
        end
  | NoBehaviour => False
  end.
Proof.
  intros Hs.
  change (wp (OnUvRead this nread buf)
            (λ _ σ', ∃ added : list Event,
               trace σ' = trace σ ++ added ++ [Call_EmitRead nread buf]
               ∧ Forall (λ e, touches_reading e = false) added)
            (λ site σ',
               avoids touches_reading σ σ'
               ∧ match site with
                 | CHECK_persistent => persistent this = None
                 | ABORT_uv_accept =>
                     0 < nread
                     ∧ ∃ client, uv_accept (stream this) client ≠ 0
                 | CHECK_pending_type =>
                     0 < nread
                     ∧ ¬ expected_pending
                           (uv_pipe_pending_type (stream this))
                 | FromJust_Set =>
                     0 < nread
                     ∧ ∃ self o,
                         Object_Set self pending_handle_string o = false
                 | _ => False
                 end) σ).
  open_read. destruct (persistent this) as [self|]; repeat wp_step.
  all: try (apply logged_last; auto 10 with trace).
  all: try absurd_branch.
  all: split; [auto 10 with trace|]; reflect_tests.
  all: first
         [ reflexivity
         | solve [split; [lia | eauto]]
         | split; [lia|];
           unfold expected_pending; intros [?|[?|[?|?]]]; congruence ].
Qed.

(** The path of [OnUvRead] on which a pending handle is accepted. *)
Lemma OnUvRead_accept_path
    (this : LibuvStreamWrap) (nread : Z) (buf : uv_buf_t) (σ : World)
    (s : uv_stream_t) (self : Object) (W : WrapType) (o : Object)
    (wrap : NativeWrap) :
  stream this = Some s → type s = UV_NAMED_PIPE → ipc s ≠ 0 →
  0 < uv_pipe_pending_count (stream this) →
  uv_pipe_pending_type (stream this) = handle_kind W →
  persistent this = Some self →
  0 < nread →
  Instantiate W this = Some o → Unwrap o = Some wrap →
  uv_accept (stream this) (UVHandle wrap) = 0 →
  Object_Set self pending_handle_string o = true →
  ∃ σ' : World,
    OnUvRead this nread buf σ = Returned tt σ'
    ∧ trace σ' =
        trace σ ++
          [Call_uv_pipe_pending_count (stream this);
           Call_uv_pipe_pending_type (stream this);
           Call_Instantiate W this;
           Call_uv_accept (stream this) (UVHandle wrap);
           Call_Set self pending_handle_string o;
           Call_EmitRead nread buf]
    ∧ properties σ' self !! pending_handle_string = Some o.
Proof.
  intros Hs Hpipe Hipc Hcount Htype Hself Hread Hobj Hwrap Hacc Hset.
  cut (∃ (a : unit) (σ' : World),
         OnUvRead this nread buf σ = Returned a σ'
         ∧ trace σ' =
             trace σ ++
               [Call_uv_pipe_pending_count (stream this);
                Call_uv_pipe_pending_type (stream this);
                Call_Instantiate W this;
                Call_uv_accept (stream this) (UVHandle wrap);
                Call_Set self pending_handle_string o;
                Call_EmitRead nread buf]
           ∧ properties σ' self !! pending_handle_string = Some o).
  { intros ([] & σ' & ?). by exists σ'. }
  apply wp_returns. open_read. rewrite Htype.
  destruct W; cbn [handle_kind]; repeat wp_step.
  all: try absurd_branch.
  all: simplify_eq; split;
    [ cbn [trace logged counted stored]; by rewrite <- !app_assoc
    | by rewrite properties_logged, properties_stored ].
Qed.

(** The path on which the wrapper is missing: nothing to accept. *)
Lemma OnUvRead_accepts_nothing
    (this : LibuvStreamWrap) (nread : Z) (buf : uv_buf_t) (σ : World)
    (s : uv_stream_t) (self : Object) (W : WrapType) :
  stream this = Some s → type s = UV_NAMED_PIPE → ipc s ≠ 0 →
  0 < uv_pipe_pending_count (stream this) →
  uv_pipe_pending_type (stream this) = handle_kind W →
  persistent this = Some self →
  0 < nread →
  Instantiate W this = None
  ∨ (∃ o : Object, Instantiate W this = Some o ∧ Unwrap o = None) →
  ∃ σ' : World,
    OnUvRead this nread buf σ = Returned tt σ'
    ∧ trace σ' =
        trace σ ++
          [Call_uv_pipe_pending_count (stream this);
           Call_uv_pipe_pending_type (stream this);
           Call_Instantiate W this;
           Call_EmitRead nread buf]
    ∧ heap σ' = heap σ.
Proof.
  intros Hs Hpipe Hipc Hcount Htype Hself Hread Hnone.
  cut (∃ (a : unit) (σ' : World),
         OnUvRead this nread buf σ = Returned a σ'
         ∧ trace σ' =
             trace σ ++
               [Call_uv_pipe_pending_count (stream this);
                Call_uv_pipe_pending_type (stream this);
                Call_Instantiate W this;
                Call_EmitRead nread buf]
         ∧ heap σ' = heap σ).
  { intros ([] & σ' & ?). by exists σ'. }
  apply wp_returns. open_read. rewrite Htype.
  destruct W; cbn [handle_kind]; repeat wp_step.
  all: try absurd_branch.
  all: try (exfalso; destruct Hnone as [?|(? & ? & ?)]; congruence).
  all: split; [cbn [trace logged counted]; by rewrite <- !app_assoc | done].
Qed.

(** C2, amended.  A read of a positive byte count on an IPC pipe whose
    pending handle is of TCP, named-pipe or UDP kind, with the persistent
    handle in place.  If instantiating the wrapper gives an object that
    unwraps, [uv_accept] returns 0 and the property store goes through,
    [OnUvRead] instantiates one wrapper of the matching class, accepts
    into its handle from this adapter's stream, stores the wrapper as
    [pendingHandle] of the adapter's object, and then forwards the same
    [nread] and [buf] to [EmitRead].  If instantiating gives an empty
    handle, or an object that does not unwrap, nothing is accepted or
    stored and the read is forwarded all the same. *)
Theorem OnUvRead_accepts_pending_handle
    (this : LibuvStreamWrap) (nread : Z) (buf : uv_buf_t) (σ : World)
    (s : uv_stream_t) (self : Object) (W : WrapType) :
  stream this = Some s → type s = UV_NAMED_PIPE → ipc s ≠ 0 →
  0 < uv_pipe_pending_count (stream this) →
  uv_pipe_pending_type (stream this) = handle_kind W →
  persistent this = Some self →
  0 < nread →
  (∀ (o : Object) (wrap : NativeWrap),
     Instantiate W this = Some o → Unwrap o = Some wrap →
     uv_accept (stream this) (UVHandle wrap) = 0 →
     Object_Set self pending_handle_string o = true →
     ∃ σ' : World,
       OnUvRead this nread buf σ = Returned tt σ'
       ∧ trace σ' =
           trace σ ++
             [Call_uv_pipe_pending_count (stream this);
              Call_uv_pipe_pending_type (stream this);
              Call_Instantiate W this;
              Call_uv_accept (stream this) (UVHandle wrap);
              Call_Set self pending_handle_string o;
              Call_EmitRead nread buf]
       ∧ properties σ' self !! pending_handle_string = Some o)
  ∧ (Instantiate W this = None
     ∨ (∃ o : Object, Instantiate W this = Some o ∧ Unwrap o = None) →
     ∃ σ' : World,
       OnUvRead this nread buf σ = Returned tt σ'
       ∧ trace σ' =
           trace σ ++
             [Call_uv_pipe_pending_count (stream this);
              Call_uv_pipe_pending_type (stream this);
              Call_Instantiate W this;
              Call_EmitRead nread buf]
       ∧ heap σ' = heap σ).
Proof.
  intros Hs Hpipe Hipc Hcount Htype Hself Hread. split.
  - intros o wrap Hobj Hwrap Hacc Hset.
    by apply (OnUvRead_accept_path this nread buf σ s self W o wrap).
  - by apply (OnUvRead_accepts_nothing this nread buf σ s self W).
Qed.

(** C5.  When the wrapper was instantiated and unwrapped, a non-zero
    result of [uv_accept] terminates the process: in [AcceptHandle], and
    so in every read of a positive count on an IPC pipe with a pending
    stream handle, which then forwards nothing.  If the loop's report of
    pending handles is accurate, no read terminates at that [ABORT]. *)
Theorem AcceptHandle_failure_is_fatal :
  (∀ (W : WrapType) (parent : LibuvStreamWrap) (σ : World) (o : Object)
     (wrap : NativeWrap),
     Instantiate W parent = Some o → Unwrap o = Some wrap →
     uv_accept (stream parent) (UVHandle wrap) ≠ 0 →
     AcceptHandle W parent σ =
       Aborted ABORT_uv_accept
         (logged (Call_uv_accept (stream parent) (UVHandle wrap))
                 (logged (Call_Instantiate W parent) σ)))
  ∧ (∀ (this : LibuvStreamWrap) (nread : Z) (buf : uv_buf_t) (σ : World)
       (s : uv_stream_t) (W : WrapType) (o : Object) (wrap : NativeWrap),
       stream this = Some s → type s = UV_NAMED_PIPE → ipc s ≠ 0 →
       0 < uv_pipe_pending_count (stream this) →
       uv_pipe_pending_type (stream this) = handle_kind W →
       persistent this ≠ None →
       0 < nread →
       Instantiate W this = Some o → Unwrap o = Some wrap →
       uv_accept (stream this) (UVHandle wrap) ≠ 0 →
       ∃ σ' : World,
         OnUvRead this nread buf σ = Aborted ABORT_uv_accept σ'
         ∧ avoids touches_reading σ σ')
  ∧ (∀ (this : LibuvStreamWrap) (nread : Z) (buf : uv_buf_t)
       (σ σ' : World),
       accurate_pending_report this →
       OnUvRead this nread buf σ ≠ Aborted ABORT_uv_accept σ').
Proof.
  split; [|split].
  - intros W parent σ o wrap Hobj Hwrap Hacc.
    apply wp_aborted. unfold AcceptHandle. repeat wp_step.
    all: try absurd_branch. by simplify_eq.
  - intros this nread buf σ s W o wrap
      Hs Hpipe Hipc Hcount Htype Hself Hread Hobj Hwrap Hacc.
    cut (∃ (site : AbortSite) (σ' : World),
           OnUvRead this nread buf σ = Aborted site σ'
           ∧ site = ABORT_uv_accept ∧ avoids touches_reading σ σ').
    { intros (site & σ' & ? & -> & ?). by exists σ'. }
    apply wp_aborts. open_read. rewrite Htype.
    destruct W; cbn [handle_kind]; repeat wp_step.
    all: try absurd_branch.
    all: split; [done | auto 10 with trace].
  - intros this nread buf σ σ' Hacc.
    destruct (stream this) as [s|] eqn:Hs.
    + cut (wp (OnUvRead this nread buf) (λ _ _, True)
              (λ site _, site ≠ ABORT_uv_accept) σ).
      { unfold wp. intros Hwp Heq. by rewrite Heq in Hwp. }
      unfold accurate_pending_report in Hacc. rewrite Hs in Hacc.
      open_read. rewrite Hs.
      destruct (persistent this) as [self|]; repeat wp_step.
      all: try done.
      all: exfalso; reflect_tests; try congruence.
      all: match goal with
           | H : uv_accept _ _ ≠ 0 |- _ => apply H, Hacc; lia
           end.
    + unfold OnUvRead, is_named_pipe_ipc, bind, deref. by rewrite Hs.
Qed.

(** C10.  On a read of a zero or negative byte count [OnUvRead]
    instantiates no wrapper, accepts nothing and sets no property; it can
    only stop at the check of the persistent handle.  That holds also
    when the adapter is an IPC pipe with a pending handle whose type was
    queried: the call then returns having made the two queries and
    forwarded the read, and the pending handle stays unaccepted. *)
Theorem OnUvRead_leaves_handle_unaccepted
    (this : LibuvStreamWrap) (nread : Z) (buf : uv_buf_t) (σ : World)
    (s : uv_stream_t) :
  stream this = Some s → nread ≤ 0 →
  match OnUvRead this nread buf σ with
  | Returned _ σ' => heap σ' = heap σ ∧ avoids accepts_handle σ σ'
  | Aborted site σ' =>
      site = CHECK_persistent
      ∧ heap σ' = heap σ ∧ avoids accepts_handle σ σ'
  | NoBehaviour => False
  end
  ∧ (type s = UV_NAMED_PIPE → ipc s ≠ 0 →
     0 < uv_pipe_pending_count (stream this) →
     persistent this ≠ None →
     OnUvRead this nread buf σ =
       Returned tt
         (logged (Call_EmitRead nread buf)
            (logged (Call_uv_pipe_pending_type (stream this))
               (logged (Call_uv_pipe_pending_count (stream this)) σ)))).
Proof.
  intros Hs Hread. split.
  - change (wp (OnUvRead this nread buf)
              (λ _ σ', heap σ' = heap σ ∧ avoids accepts_handle σ σ')
              (λ site σ',
                 site = CHECK_persistent
                 ∧ heap σ' = heap σ ∧ avoids accepts_handle σ σ') σ).
    open_read. destruct (persistent this) as [self|]; repeat wp_step.
    all: try absurd_branch.
    all: repeat split; auto 10 with trace.
  - intros Hpipe Hipc Hcount Hself. apply wp_returned.
    open_read. repeat wp_step.
    all: try absurd_branch.
    all: done.
Qed.

End OnUvRead_properties.

(** ** DoWrite *)

Section DoWrite_properties.
Context `{uv : Libuv}.

(** Without overflow the summing loop computes the total length. *)
Lemma sum_bytes_from (l : list uv_buf_t) :
  ∀ acc : Z,
    size_t_lens l → 0 ≤ acc → acc + total_len l ≤ SIZE_MAX →
    fold_left (λ bytes b, to_size_t (bytes + len b)) l acc
      = acc + total_len l.
Proof.
  induction l as [|b l IH]; intros acc Hlens Hacc Hmax; simpl; [lia|].
  apply Forall_cons in Hlens as [Hb Hl].
  pose proof (total_len_nonneg l Hl). rewrite total_len_cons in Hmax.
  rewrite to_size_t_id by lia. rewrite IH by (done || lia). lia.
Qed.

Lemma sum_bytes_total (l : list uv_buf_t) :
  size_t_lens l → total_len l ≤ SIZE_MAX → sum_bytes l = total_len l.
Proof. intros. unfold sum_bytes. by rewrite sum_bytes_from. Qed.

Ltac open_write :=
  unfold DoWrite, NODE_COUNT_NET_BYTES_SENT, NODE_COUNT_PIPE_BYTES_SENT.

(** C9.  [DoWrite] calls [Dispatched()] on the request as its last action
    whatever [uv_write] or [uv_write2] answered, and returns that answer.
    On a non-zero answer no counter changes.  On 0 the send counter of
    the handle kind, TCP or named pipe, grows by the total length of the
    buffers, and no other counter changes. *)
Theorem DoWrite_always_dispatched
    (this : LibuvStreamWrap) (w : WriteWrap) (bufs : list uv_buf_t)
    (send_handle : option uv_stream_t) (σ : World) :
  let r := dispatch_status this w bufs send_handle in
  let σ1 := logged (dispatch_call this w bufs send_handle) σ in
  (r ≠ 0 →
     DoWrite this w bufs send_handle σ =
       Returned r (logged (Call_Dispatched_write w) σ1))
  ∧ (r = 0 →
     ∀ s : uv_stream_t,
       stream this = Some s →
       size_t_lens bufs → total_len bufs ≤ SIZE_MAX →
       ∃ σ' : World,
         DoWrite this w bufs send_handle σ = Returned 0 σ'
         ∧ trace σ' = trace σ1 ++ [Call_Dispatched_write w]
         ∧ net_bytes_sent (counters σ') =
             net_bytes_sent (counters σ)
             + (if bool_decide (type s = UV_TCP) then total_len bufs else 0)
         ∧ pipe_bytes_sent (counters σ') =
             pipe_bytes_sent (counters σ)
             + (if bool_decide (type s = UV_NAMED_PIPE)
                then total_len bufs else 0)
         ∧ net_bytes_recv (counters σ') = net_bytes_recv (counters σ)
         ∧ pipe_bytes_recv (counters σ') = pipe_bytes_recv (counters σ)).
Proof.
  intros r σ1. subst r σ1. split.
  - intros Hr. apply wp_returned. open_write.
    destruct send_handle as [h|]; cbn [dispatch_status dispatch_call] in *;
      repeat wp_step.
    all: try absurd_branch.
    all: done.
  - intros Hr s Hs Hlens Hmax.
    cut (∃ (a : Z) (σ' : World),
           DoWrite this w bufs send_handle σ = Returned a σ'
           ∧ a = 0
           ∧ trace σ' =
               trace (logged (dispatch_call this w bufs send_handle) σ)
               ++ [Call_Dispatched_write w]
           ∧ net_bytes_sent (counters σ') =
               net_bytes_sent (counters σ)
               + (if bool_decide (type s = UV_TCP)
                  then total_len bufs else 0)
           ∧ pipe_bytes_sent (counters σ') =
               pipe_bytes_sent (counters σ)
               + (if bool_decide (type s = UV_NAMED_PIPE)
                  then total_len bufs else 0)
           ∧ net_bytes_recv (counters σ') = net_bytes_recv (counters σ)
           ∧ pipe_bytes_recv (counters σ') = pipe_bytes_recv (counters σ)).
    { intros (a & σ' & ? & -> & ?). by exists σ'. }
    apply wp_returns. open_write.
    destruct send_handle as [h|]; cbn [dispatch_status dispatch_call] in *;
      repeat wp_step.
    all: try absurd_branch.
    all: simplify_eq; rewrite ?sum_bytes_total by done.
    all: cbn [trace counters logged counted net_bytes_sent pipe_bytes_sent
              net_bytes_recv pipe_bytes_recv].
    all: repeat case_bool_decide; try congruence.
    all: repeat split; try done; lia.
Qed.

(** C3, amended.  [DoWrite] does not look at the kind of the adapter: a
    write that supplies a handle to send is passed to [uv_write2] on every
    adapter, IPC pipe or not, the request is marked dispatched, and the
    answer of [uv_write2] is returned as it is. *)
Theorem DoWrite_send_handle_unchecked
    (this : LibuvStreamWrap) (w : WriteWrap) (bufs : list uv_buf_t)
    (h : uv_stream_t) (σ : World) (s : uv_stream_t) :
  stream this = Some s →
  ∃ σ' : World,
    DoWrite this w bufs (Some h) σ =
      Returned (uv_write2 w (stream this) bufs h) σ'
    ∧ trace σ' =
        trace σ ++
          [Call_uv_write2 w (stream this) bufs h; Call_Dispatched_write w].
Proof.
  intros Hs.
  cut (∃ (a : Z) (σ' : World),
         DoWrite this w bufs (Some h) σ = Returned a σ'
         ∧ a = uv_write2 w (stream this) bufs h
         ∧ trace σ' =
             trace σ ++
               [Call_uv_write2 w (stream this) bufs h;
                Call_Dispatched_write w]).
  { intros (a & σ' & ? & -> & ?). by exists σ'. }
  apply wp_returns. open_write. repeat wp_step.
  all: split; [done|].
  all: cbn [trace logged counted]; by rewrite <- app_assoc.
Qed.

End DoWrite_properties.

(** ** SetBlocking and GetWriteQueueSize *)

Section accessor_properties.
Context `{uv : Libuv}.


(** C8, amended.  [GetWriteQueueSize] sets 0 as return value when the
    stream handle is null; otherwise it sets the handle's
    [write_queue_size] converted to [uint32_t], which is the value itself
    as long as it is below 2^32.  It calls nothing and changes nothing. *)
Theorem GetWriteQueueSize_reports_queue
    (wrap : LibuvStreamWrap) (argv : list Value) (σ : World) :
  (stream wrap = None →
     GetWriteQueueSize (mk_info (Some wrap) argv) σ = Returned (Some 0) σ)
  ∧ (∀ s : uv_stream_t,
       stream wrap = Some s →
       GetWriteQueueSize (mk_info (Some wrap) argv) σ
         = Returned (Some (write_queue_size s mod 2 ^ 32)) σ
       ∧ (0 ≤ write_queue_size s ≤ UINT32_MAX →
          GetWriteQueueSize (mk_info (Some wrap) argv) σ
            = Returned (Some (write_queue_size s)) σ)).
Proof.
  unfold GetWriteQueueSize. cbn [unwrapped]. split.
  - by intros ->.
  - intros s ->. split; [reflexivity|].
    intros Hsmall. by rewrite to_uint32_t_id.
Qed.

End accessor_properties.

(** * The statements on concrete runs *)

(** C1: "ab" and "cde" with 4 bytes written: one byte is left, in one
    buffer that starts at offset 2 of "cde". *)
Lemma DoTryWrite_partial_write_slicing_witness :
  ∃ v' : BufVec,
    DoTryWrite (uv := scripted_uv (try_write_reports 4))
               tcp_wrap (ab_cde 1000 2000) quiet
      = Returned (0, v')
          (logged (Call_uv_try_write (stream tcp_wrap)
                                     (view (ab_cde 1000 2000))) quiet)
    ∧ total_len (view v') = total_len (view (ab_cde 1000 2000)) - 4
    ∧ view v' = [mk_buf 2002 1].
Proof.
  destruct (DoTryWrite_partial_write_slicing
              (uv := scripted_uv (try_write_reports 4))) as [Hall Hab].
  assert (in_bounds (ab_cde 1000 2000)) as Hin
    by (unfold in_bounds; simpl; lia).
  assert (size_t_lens (view (ab_cde 1000 2000))) as Hlens.
  { unfold size_t_lens, view, ab_cde. simpl. repeat apply Forall_cons_2.
    all: try apply Forall_nil. all: unfold SIZE_MAX; simpl; lia. }
  assert (0 ≤ uv_try_write (Libuv := scripted_uv (try_write_reports 4))
                (stream tcp_wrap) (view (ab_cde 1000 2000))
            ≤ total_len (view (ab_cde 1000 2000))) as HW
    by (vm_compute; split; discriminate).
  destruct (Hall tcp_wrap (ab_cde 1000 2000) quiet Hin Hlens HW)
    as (v' & k & r & Hrun & _ & _ & _ & _ & _ & _ & Htotal).
  destruct (Hab tcp_wrap quiet 1000 2000 eq_refl) as (v'' & Hrun' & Hview).
  exists v'. split; [exact Hrun|]. split; [exact Htotal|].
  rewrite Hrun in Hrun'. by simplify_eq.
Defined.

(** C1 as stated: the buffer left over does not start at offset 1 of "cde"
    but at offset 2, where "e" is. *)
Lemma DoTryWrite_ab_cde_offset :
  DoTryWrite (uv := scripted_uv (try_write_reports 4))
             tcp_wrap (ab_cde 1000 2000) quiet
    = Returned (0, mk_vec [mk_buf 1000 2; mk_buf (2000 + 2) 1] 1 1)
        (logged (Call_uv_try_write (stream tcp_wrap)
                                   (view (ab_cde 1000 2000))) quiet)
  ∧ view (mk_vec [mk_buf 1000 2; mk_buf (2000 + 2) 1] 1 1)
      ≠ [mk_buf (2000 + 1) 1].
Proof. split; [reflexivity | discriminate]. Qed.

(** C4: [uv_try_write] reports [UV_EAGAIN]. *)
Lemma DoTryWrite_zero_progress_witness :
  DoTryWrite (uv := scripted_uv (try_write_reports (-11)))
             tcp_wrap (ab_cde 1000 2000) quiet
    = Returned (0, ab_cde 1000 2000)
        (logged (Call_uv_try_write (stream tcp_wrap)
                                   (view (ab_cde 1000 2000))) quiet).
Proof.
  apply (proj1 (DoTryWrite_zero_progress
                  (uv := scripted_uv (try_write_reports (-11)))
                  tcp_wrap (ab_cde 1000 2000) quiet)).
  right. reflexivity.
Defined.

(** C2: 5 bytes arrive on an IPC pipe together with a TCP handle. *)
Lemma OnUvRead_accepts_pending_handle_witness :
  ∃ σ' : World,
    OnUvRead (uv := scripted_uv (pending_tcp 0 (Some 7%nat)))
             (node := scripted_node (pending_tcp 0 (Some 7%nat)))
             ipc_wrap 5 read_buf quiet = Returned tt σ'
    ∧ trace σ' =
        [Call_uv_pipe_pending_count (stream ipc_wrap);
         Call_uv_pipe_pending_type (stream ipc_wrap);
         Call_Instantiate TCPWrap ipc_wrap;
         Call_uv_accept (stream ipc_wrap) (mk_stream 7 UV_TCP 0 0);
         Call_Set 1%nat pending_handle_string 7%nat;
         Call_EmitRead 5 read_buf]
    ∧ properties σ' 1%nat !! pending_handle_string = Some 7%nat.
Proof.
  assert (0 < uv_pipe_pending_count
                (Libuv := scripted_uv (pending_tcp 0 (Some 7%nat)))
                (stream ipc_wrap)) as Hcount by reflexivity.
  assert (0 < 5) as Hread by reflexivity.
  assert (ipc (mk_stream 1 UV_NAMED_PIPE 1 0) ≠ 0) as Hipc by discriminate.
  apply (proj1 (OnUvRead_accepts_pending_handle
                  (uv := scripted_uv (pending_tcp 0 (Some 7%nat)))
                  (node := scripted_node (pending_tcp 0 (Some 7%nat)))
                  ipc_wrap 5 read_buf quiet (mk_stream 1 UV_NAMED_PIPE 1 0)
                  1%nat TCPWrap eq_refl eq_refl Hipc Hcount eq_refl eq_refl
                  Hread)
               7%nat (mk_native (mk_stream 7 UV_TCP 0 0)));
    reflexivity.
Defined.

(** C2 as stated: when instantiating the wrapper gives an empty handle,
    nothing is accepted and no property is set; only the read is forwarded. *)
Lemma OnUvRead_instantiate_fails :
  ∃ σ' : World,
    OnUvRead (uv := scripted_uv (pending_tcp 0 None))
             (node := scripted_node (pending_tcp 0 None))
             ipc_wrap 5 read_buf quiet = Returned tt σ'
    ∧ trace σ' =
        [Call_uv_pipe_pending_count (stream ipc_wrap);
         Call_uv_pipe_pending_type (stream ipc_wrap);
         Call_Instantiate TCPWrap ipc_wrap;
         Call_EmitRead 5 read_buf]
    ∧ properties σ' 1%nat !! pending_handle_string = None.
Proof.
  eexists. split; [reflexivity|]. split; reflexivity.
Qed.

(** C3: a handle is sent over a TCP adapter. *)
Lemma DoWrite_send_handle_unchecked_witness :
  ∃ σ' : World,
    DoWrite (uv := scripted_uv (write2_answers (-22)))
            tcp_wrap (mk_write_wrap 3) [mk_buf 1000 2] (Some sent_handle) quiet
      = Returned (-22) σ'
    ∧ trace σ' =
        [Call_uv_write2 (mk_write_wrap 3) (stream tcp_wrap) [mk_buf 1000 2]
                        sent_handle;
         Call_Dispatched_write (mk_write_wrap 3)].
Proof.
  apply (DoWrite_send_handle_unchecked
           (uv := scripted_uv (write2_answers (-22)))
           tcp_wrap (mk_write_wrap 3) [mk_buf 1000 2] sent_handle quiet
           (mk_stream 1 UV_TCP 0 0)).
  reflexivity.
Defined.

(** C3 as stated: on a TCP adapter, which is no IPC pipe, the write with a
    handle reaches [uv_write2]; when that answers 0 the write succeeds, and
    when it answers [UV_EINVAL] the call was made all the same. *)
Lemma DoWrite_send_handle_on_tcp :
  DoWrite (uv := scripted_uv (write2_answers 0))
          tcp_wrap (mk_write_wrap 3) [mk_buf 1000 2] (Some sent_handle) quiet
    = Returned 0
        (mk_world
           [Call_uv_write2 (mk_write_wrap 3) (stream tcp_wrap)
                           [mk_buf 1000 2] sent_handle;
            Call_Dispatched_write (mk_write_wrap 3)]
           ∅ (mk_counters 0 0 2 0))
  ∧ DoWrite (uv := scripted_uv (write2_answers (-22)))
            tcp_wrap (mk_write_wrap 3) [mk_buf 1000 2] (Some sent_handle)
            quiet
    = Returned (-22)
        (mk_world
           [Call_uv_write2 (mk_write_wrap 3) (stream tcp_wrap)
                           [mk_buf 1000 2] sent_handle;
            Call_Dispatched_write (mk_write_wrap 3)]
           ∅ (mk_counters 0 0 0 0)).
Proof. split; reflexivity. Qed.

(** C5: the accept fails with [UV_EAGAIN]. *)
Lemma AcceptHandle_failure_is_fatal_witness :
  AcceptHandle (uv := scripted_uv (pending_tcp (-11) (Some 7%nat)))
               (node := scripted_node (pending_tcp (-11) (Some 7%nat)))
               TCPWrap ipc_wrap quiet
    = Aborted ABORT_uv_accept
        (logged (Call_uv_accept (stream ipc_wrap) (mk_stream 7 UV_TCP 0 0))
                (logged (Call_Instantiate TCPWrap ipc_wrap) quiet)).
Proof.
  apply (proj1 (AcceptHandle_failure_is_fatal
                  (uv := scripted_uv (pending_tcp (-11) (Some 7%nat)))
                  (node := scripted_node (pending_tcp (-11) (Some 7%nat))))
               TCPWrap ipc_wrap quiet 7%nat
               (mk_native (mk_stream 7 UV_TCP 0 0)));
    first [reflexivity | discriminate].
Defined.

(** C6: end of stream ([UV_EOF], -4095) on a TCP adapter. *)
Lemma OnUvRead_forwards_read_witness :
  match OnUvRead (uv := scripted_uv calm) (node := scripted_node calm)
                 tcp_wrap (-4095) read_buf quiet with
  | Returned _ σ' =>
      ∃ added : list Event,
        trace σ' = trace quiet ++ added ++ [Call_EmitRead (-4095) read_buf]
        ∧ Forall (λ e, touches_reading e = false) added
  | _ => False
  end.
Proof.
  exact (OnUvRead_forwards_read
           (uv := scripted_uv calm) (node := scripted_node calm)
           tcp_wrap (-4095) read_buf quiet (mk_stream 1 UV_TCP 0 0) eq_refl).
Defined.

(** C6 as stated: when the accept of the pending handle fails, the read of
    5 bytes is not forwarded; the process is terminated first. *)
Lemma OnUvRead_not_forwarded_when_accept_fails :
  OnUvRead (uv := scripted_uv (pending_tcp (-11) (Some 7%nat)))
           (node := scripted_node (pending_tcp (-11) (Some 7%nat)))
           ipc_wrap 5 read_buf quiet
    = Aborted ABORT_uv_accept
        (mk_world
           [Call_uv_pipe_pending_count (stream ipc_wrap);
            Call_uv_pipe_pending_type (stream ipc_wrap);
            Call_Instantiate TCPWrap ipc_wrap;
            Call_uv_accept (stream ipc_wrap) (mk_stream 7 UV_TCP 0 0)]
           ∅ (mk_counters 0 5 0 0))
  ∧ Call_EmitRead 5 read_buf ∉
      [Call_uv_pipe_pending_count (stream ipc_wrap);
       Call_uv_pipe_pending_type (stream ipc_wrap);
       Call_Instantiate TCPWrap ipc_wrap;
       Call_uv_accept (stream ipc_wrap) (mk_stream 7 UV_TCP 0 0)].
Proof.
  split; [reflexivity|].
  rewrite !not_elem_of_cons. repeat split; try discriminate.
  apply not_elem_of_nil.
Qed.



(** C8: 1024 bytes are queued. *)
Lemma GetWriteQueueSize_reports_queue_witness :
  GetWriteQueueSize (mk_info (Some (queued_wrap 1024)) []) quiet
    = Returned (Some 1024) quiet.
Proof.
  apply (proj2 (GetWriteQueueSize_reports_queue (queued_wrap 1024) [] quiet)
               (mk_stream 1 UV_TCP 0 1024) eq_refl).
  unfold UINT32_MAX. simpl. lia.
Defined.

(** C8 as stated: with 2^32 bytes queued the function reports 0, not the
    queue size. *)
Lemma GetWriteQueueSize_wraps_at_4GiB :
  GetWriteQueueSize (mk_info (Some (queued_wrap (2 ^ 32))) []) quiet
    = Returned (Some 0) quiet
  ∧ GetWriteQueueSize (mk_info (Some (queued_wrap (2 ^ 32))) []) quiet
    ≠ Returned (Some (2 ^ 32)) quiet.
Proof. split; [reflexivity | discriminate]. Qed.

(** C9: on a TCP adapter [uv_write] fails with [UV_EPIPE] (-32), and then
    succeeds for the five bytes of "ab" and "cde". *)
Lemma DoWrite_always_dispatched_witness :
  DoWrite (uv := scripted_uv (mk_script 0 (-32) 0 0 0 UV_UNKNOWN_HANDLE 0
                                        None None true))
          tcp_wrap (mk_write_wrap 3) [mk_buf 1000 2; mk_buf 2000 3] None quiet
    = Returned (-32)
        (logged (Call_Dispatched_write (mk_write_wrap 3))
           (logged (Call_uv_write (mk_write_wrap 3) (stream tcp_wrap)
                                  [mk_buf 1000 2; mk_buf 2000 3]) quiet))
  ∧ ∃ σ' : World,
      DoWrite (uv := scripted_uv calm)
              tcp_wrap (mk_write_wrap 3) [mk_buf 1000 2; mk_buf 2000 3] None
              quiet
        = Returned 0 σ'
      ∧ net_bytes_sent (counters σ') = 5
      ∧ pipe_bytes_sent (counters σ') = 0.
Proof.
  split.
  - apply (proj1 (DoWrite_always_dispatched
                    (uv := scripted_uv (mk_script 0 (-32) 0 0 0
                                          UV_UNKNOWN_HANDLE 0 None None true))
                    tcp_wrap (mk_write_wrap 3) [mk_buf 1000 2; mk_buf 2000 3]
                    None quiet)).
    discriminate.
  - destruct (proj2 (DoWrite_always_dispatched
                       (uv := scripted_uv calm)
                       tcp_wrap (mk_write_wrap 3)
                       [mk_buf 1000 2; mk_buf 2000 3] None quiet)
                    eq_refl (mk_stream 1 UV_TCP 0 0) eq_refl)
      as (σ' & Hrun & _ & Hnet & Hpipe & _).
    + repeat apply Forall_cons_2. all: try apply Forall_nil.
      all: unfold SIZE_MAX; simpl; lia.
    + vm_compute. discriminate.
    + exists σ'. split; [exact Hrun|]. split; [exact Hnet | exact Hpipe].
Defined.

(** C10: end of stream on an IPC pipe with a pending TCP handle. *)
Lemma OnUvRead_leaves_handle_unaccepted_witness :
  OnUvRead (uv := scripted_uv (pending_tcp 0 (Some 7%nat)))
           (node := scripted_node (pending_tcp 0 (Some 7%nat)))
           ipc_wrap (-4095) read_buf quiet
    = Returned tt
        (logged (Call_EmitRead (-4095) read_buf)
           (logged (Call_uv_pipe_pending_type (stream ipc_wrap))
              (logged (Call_uv_pipe_pending_count (stream ipc_wrap)) quiet))).
Proof.
  apply (proj2 (OnUvRead_leaves_handle_unaccepted
                  (uv := scripted_uv (pending_tcp 0 (Some 7%nat)))
                  (node := scripted_node (pending_tcp 0 (Some 7%nat)))
                  ipc_wrap (-4095) read_buf quiet
                  (mk_stream 1 UV_NAMED_PIPE 1 0) eq_refl
                  ltac:(lia)));
    first [reflexivity | discriminate].
Defined.

(** * Further properties *)

(** ** DoTryWrite: what the slicing keeps *)

(** The loop never moves the end of the vector, never resizes the array
    and writes to at most the entry it stops at. *)
Lemma slice_off_frame (arr : list uv_buf_t) (n : nat) :
  ∀ (p : nat) (W : Z) (v' : BufVec),
    slice_off arr p n W = Some v' →
    length (storage v') = length arr
    ∧ (bufs v' + count v' = p + n)%nat
    ∧ (p ≤ bufs v')%nat
    ∧ ∀ i : nat, i ≠ bufs v' → storage v' !! i = arr !! i.
Proof.
  induction n as [|n IH]; intros p W v' Hrun; simpl in Hrun.
  - simplify_eq. simpl. repeat split; (done || lia).
  - destruct (arr !! p) as [b|] eqn:Hb; [|done].
    destruct (len b >? W).
    + simplify_eq. simpl. rewrite length_insert.
      repeat split; try (done || lia).
      intros i Hi. by rewrite list_lookup_insert_ne.
    + apply IH in Hrun as (Hlen & Hend & Hle & Hother).
      repeat split; try (done || lia).
Qed.

(** What is left of a vector of [size_t] lengths has [size_t] lengths. *)
Lemma size_t_lens_front (l rest : list uv_buf_t) (k : nat) (b : uv_buf_t)
    (r : Z) :
  size_t_lens l → drop k l = b :: rest → 0 ≤ r < len b →
  size_t_lens (mk_buf (base b + r) (len b - r) :: rest) ∧ size_t_lens rest.
Proof.
  intros Hl Hd Hr.
  assert (size_t_lens (drop k l)) as Hdrop by (by apply Forall_drop).
  rewrite Hd in Hdrop. apply Forall_cons in Hdrop as [Hb Hrest].
  split; [|done]. apply Forall_cons. split; [simpl; lia | done].
Qed.

Section DoTryWrite_invariants.
Context `{uv : Libuv}.

Lemma DoTryWrite_in_array (this : LibuvStreamWrap) (v : BufVec) (σ : World) :
  in_bounds v →
  0 ≤ uv_try_write (stream this) (view v) →
  ∃ v' : BufVec,
    DoTryWrite this v σ =
      Returned (0, v') (logged (Call_uv_try_write (stream this) (view v)) σ)
    ∧ length (storage v') = length (storage v)
    ∧ (bufs v' + count v' = bufs v + count v)%nat
    ∧ (bufs v ≤ bufs v')%nat
    ∧ in_bounds v'
    ∧ ∀ i : nat, i ≠ bufs v' → storage v' !! i = storage v !! i.
Proof.
  intros Hin Hpos. rewrite DoTryWrite_written by done.
  destruct (slice_off_in_bounds (storage v) (count v) (bufs v)
              (uv_try_write (stream this) (view v)) Hin) as [v' Hrun].
  rewrite Hrun. exists v'. split; [done|].
  apply slice_off_frame in Hrun as (Hlen & Hend & Hle & Hother).
  unfold in_bounds in *. rewrite Hlen, Hend. done.
Qed.

(** X1.  Whenever [uv_try_write] reports a byte count, whatever it is,
    [DoTryWrite] hands back a vector that ends where the old one ended
    ([*bufs + *count] is unchanged) and so still lies inside the array; the
    array keeps its size, and no entry other than the one the new [*bufs]
    points at was written. *)
Theorem DoTryWrite_keeps_vector_in_array
    (this : LibuvStreamWrap) (v : BufVec) (σ : World) :
  in_bounds v →
  0 ≤ uv_try_write (stream this) (view v) →
  ∃ v' : BufVec,
    DoTryWrite this v σ =
      Returned (0, v') (logged (Call_uv_try_write (stream this) (view v)) σ)
    ∧ length (storage v') = length (storage v)
    ∧ (bufs v' + count v' = bufs v + count v)%nat
    ∧ (bufs v ≤ bufs v')%nat
    ∧ in_bounds v'
    ∧ ∀ i : nat, i ≠ bufs v' → storage v' !! i = storage v !! i.
Proof. exact (DoTryWrite_in_array this v σ). Qed.

(** The vector after a write of at most its length: where it lies, and
    that its lengths are still [size_t]. *)
Lemma DoTryWrite_again (this : LibuvStreamWrap) (v : BufVec) (σ : World) :
  in_bounds v → size_t_lens (view v) →
  0 ≤ uv_try_write (stream this) (view v) ≤ total_len (view v) →
  ∃ v' : BufVec,
    DoTryWrite this v σ =
      Returned (0, v') (logged (Call_uv_try_write (stream this) (view v)) σ)
    ∧ in_bounds v'
    ∧ size_t_lens (view v')
    ∧ (bufs v' + count v' = bufs v + count v)%nat
    ∧ total_len (view v') =
        total_len (view v) - uv_try_write (stream this) (view v)
    ∧ (total_len (view v') = 0 → view v' = [])
    ∧ ∀ b' : uv_buf_t, b' ∈ view v' → ∃ b, b ∈ view v ∧ suffix_of b' b.
Proof.
  intros Hin Hlens HW.
  destruct (DoTryWrite_slices this v σ Hin Hlens HW)
    as (v' & k & r & Hrun & Hk & Hbufs & Hcount & Hr & Hsum & Hfront & Htot).
  destruct (DoTryWrite_in_array this v σ Hin) as (v'' & Hrun' & Hframe);
    [lia|].
  rewrite Hrun in Hrun'. simplify_eq.
  destruct Hframe as (_ & Hend & _ & Hin' & _).
  exists v''. split; [done|]. split; [done|].
  destruct (drop k (view v)) as [|b rest] eqn:Hd.
  - destruct Hfront as [-> Hview]. rewrite Hview in Htot |- *.
    split_and!; try done; [constructor|].
    intros b' Hb'. by apply elem_of_nil in Hb'.
  - destruct Hfront as [Hlt Hview].
    destruct (size_t_lens_front (view v) rest k b r Hlens Hd) as [Hnew Hrest];
      [lia|].
    assert (b :: rest ⊆ view v) as Hsub.
    { rewrite <- Hd. intros x Hx. rewrite <- (take_drop k (view v)).
      apply elem_of_app. by right. }
    assert (0 ≤ len b ≤ SIZE_MAX) as Hb.
    { eapply (proj1 (Forall_forall _ _) Hlens). apply Hsub. by left. }
    rewrite Hview in Htot |- *. split_and!; try done.
    + intros Hzero. exfalso. pose proof (total_len_nonneg _ Hrest).
      rewrite total_len_cons in Hzero. simpl in Hzero. lia.
    + intros b' [->|Hb']%elem_of_cons.
      * exists b. split; [apply Hsub; by left|].
        unfold suffix_of. simpl. lia.
      * exists b'. split; [apply Hsub; by right|].
        assert (0 ≤ len b' ≤ SIZE_MAX)
          by (eapply (proj1 (Forall_forall _ _) Hrest); done).
        unfold suffix_of. lia.
Qed.

(** X2.  When [uv_try_write] reports that every byte was written,
    [DoTryWrite] leaves no buffer at all: [*count] becomes 0. *)
Theorem DoTryWrite_full_write_empties
    (this : LibuvStreamWrap) (v : BufVec) (σ : World) :
  in_bounds v → size_t_lens (view v) →
  uv_try_write (stream this) (view v) = total_len (view v) →
  ∃ v' : BufVec,
    DoTryWrite this v σ =
      Returned (0, v') (logged (Call_uv_try_write (stream this) (view v)) σ)
    ∧ count v' = 0%nat
    ∧ view v' = [].
Proof.
  intros Hin Hlens Hall.
  pose proof (total_len_nonneg _ Hlens) as Hnonneg.
  destruct (DoTryWrite_again this v σ Hin Hlens)
    as (v' & Hrun & Hin' & _ & _ & Htot & Hempty & _); [lia|].
  exists v'. split; [done|].
  assert (view v' = []) as Hview by (apply Hempty; lia).
  split; [|done].
  apply (f_equal length) in Hview. unfold view in Hview.
  rewrite length_take, length_drop in Hview. unfold in_bounds in Hin'.
  simpl in Hview. lia.
Qed.

(** X3.  Every buffer [DoTryWrite] leaves is the end of one of the buffers
    it was given: it starts inside that buffer and stops where that buffer
    stops, so the unsent bytes are never looked for outside the caller's
    memory. *)
Theorem DoTryWrite_leaves_suffixes
    (this : LibuvStreamWrap) (v : BufVec) (σ : World) :
  in_bounds v → size_t_lens (view v) →
  0 ≤ uv_try_write (stream this) (view v) ≤ total_len (view v) →
  ∃ v' : BufVec,
    DoTryWrite this v σ =
      Returned (0, v') (logged (Call_uv_try_write (stream this) (view v)) σ)
    ∧ ∀ b' : uv_buf_t, b' ∈ view v' → ∃ b, b ∈ view v ∧ suffix_of b' b.
Proof.
  intros Hin Hlens HW.
  destruct (DoTryWrite_again this v σ Hin Hlens HW)
    as (v' & Hrun & _ & _ & _ & _ & _ & Hsuffix).
  by exists v'.
Qed.

(** X4.  Two calls in a row: when the first write reports [W1] bytes of
    the [L] offered and the second reports [W2] of the [L - W1] left, both
    calls return 0 and [L - W1 - W2] bytes are left, in a vector that
    still ends where the first one ended. *)
Theorem DoTryWrite_twice
    (this : LibuvStreamWrap) (v : BufVec) (σ : World) :
  in_bounds v → size_t_lens (view v) →
  0 ≤ uv_try_write (stream this) (view v) ≤ total_len (view v) →
  ∃ (v1 : BufVec) (σ1 : World),
    DoTryWrite this v σ = Returned (0, v1) σ1
    ∧ (0 ≤ uv_try_write (stream this) (view v1) ≤ total_len (view v1) →
       ∃ (v2 : BufVec) (σ2 : World),
         DoTryWrite this v1 σ1 = Returned (0, v2) σ2
         ∧ total_len (view v2) =
             total_len (view v)
             - uv_try_write (stream this) (view v)
             - uv_try_write (stream this) (view v1)
         ∧ (bufs v2 + count v2 = bufs v + count v)%nat
         ∧ trace σ2 =
             trace σ ++
               [Call_uv_try_write (stream this) (view v);
                Call_uv_try_write (stream this) (view v1)]).
Proof.
  intros Hin Hlens HW.
  destruct (DoTryWrite_again this v σ Hin Hlens HW)
    as (v1 & Hrun1 & Hin1 & Hlens1 & Hend1 & Htot1 & _).
  eexists v1, _. split; [exact Hrun1|]. intros HW2.
  destruct (DoTryWrite_again this v1
              (logged (Call_uv_try_write (stream this) (view v)) σ)
              Hin1 Hlens1 HW2)
    as (v2 & Hrun2 & _ & _ & Hend2 & Htot2 & _).
  eexists v2, _. split; [exact Hrun2|].
  repeat split; try lia. simpl. by rewrite <- app_assoc.
Qed.

(** X5.  A write that reports 0 bytes: a vector without buffers, and a
    vector whose first buffer is not empty, come back exactly as they
    were, array included; an empty first buffer is dropped all the same. *)
Theorem DoTryWrite_nothing_written
    (this : LibuvStreamWrap) (v : BufVec) (σ : World) :
  uv_try_write (stream this) (view v) = 0 →
  let σ' := logged (Call_uv_try_write (stream this) (view v)) σ in
  (count v = 0%nat → DoTryWrite this v σ = Returned (0, v) σ')
  ∧ (∀ (b : uv_buf_t) (rest : list uv_buf_t),
       view v = b :: rest → 0 < len b ≤ SIZE_MAX →
       DoTryWrite this v σ = Returned (0, v) σ')
  ∧ (∀ (b : uv_buf_t) (rest : list uv_buf_t),
       in_bounds v → view v = b :: rest → len b = 0 →
       ∃ v' : BufVec,
         DoTryWrite this v σ = Returned (0, v') σ'
         ∧ (bufs v < bufs v')%nat ∧ (count v' < count v)%nat).
Proof.
  intros HW σ'. subst σ'.
  assert (∀ b rest, view v = b :: rest →
            storage v !! bufs v = Some b ∧ ∃ n, count v = S n) as Hfront.
  { intros b rest Hview. unfold view in Hview.
    destruct (count v) as [|n]; [done|]. split; [|by exists n].
    destruct (drop (bufs v) (storage v)) as [|b0 l] eqn:Hd; [done|].
    simpl in Hview. simplify_eq.
    rewrite <- (Nat.add_0_r (bufs v)), <- lookup_drop. by rewrite Hd. }
  rewrite DoTryWrite_written by lia. rewrite HW. repeat split.
  - intros Hcount. rewrite Hcount. simpl.
    destruct v as [arr p c]. cbn [storage bufs count] in *. by subst c.
  - intros b rest Hview Hb. destruct (Hfront b rest Hview) as [Hlook [n Hn]].
    rewrite Hn. simpl. rewrite Hlook.
    rewrite (proj2 (Z.gtb_lt _ _)) by lia.
    unfold sliced. rewrite Z.add_0_r, Z.sub_0_r, to_size_t_id by lia.
    rewrite list_insert_id by (by destruct b).
    destruct v as [arr p c]. cbn [storage bufs count] in *. by subst c.
  - intros b rest Hin Hview Hb.
    destruct (Hfront b rest Hview) as [Hlook [n Hn]].
    unfold in_bounds in Hin. rewrite Hn in *. simpl. rewrite Hlook, Hb.
    simpl.
    match goal with
    | |- context [slice_off ?a ?p ?m ?w] =>
        destruct (slice_off_in_bounds a m p w) as [v' Hrun]; [lia|]
    end.
    rewrite Hrun. exists v'. split; [done|].
    apply slice_off_frame in Hrun as (_ & Hend & Hle & _). lia.
Qed.

End DoTryWrite_invariants.

(** ** OnUvRead and AcceptHandle: the other paths *)

Section read_paths.
Context `{uv : Libuv, node : Node}.

Ltac open_read :=
  unfold OnUvRead, AcceptHandle, Set_FromJust, EmitRead, object,
    is_named_pipe_ipc, is_named_pipe, is_tcp,
    NODE_COUNT_NET_BYTES_RECV, NODE_COUNT_PIPE_BYTES_RECV.

(** X6.  Bytes received are counted once, before anything is accepted:
    however the call ends, a positive [nread] was added to the TCP counter
    on a TCP handle and to the pipe counter on a named pipe, and to none
    on any other handle; a zero or negative [nread] is never counted, and
    the send counters are never touched. *)
Theorem OnUvRead_counts_received_bytes
    (this : LibuvStreamWrap) (nread : Z) (buf : uv_buf_t) (σ : World)
    (s : uv_stream_t) :
  stream this = Some s → persistent this ≠ None →
  match OnUvRead this nread buf σ with
  | Returned _ σ' | Aborted _ σ' =>
      net_bytes_recv (counters σ') =
        net_bytes_recv (counters σ)
        + (if bool_decide (0 < nread ∧ type s = UV_TCP) then nread else 0)
      ∧ pipe_bytes_recv (counters σ') =
          pipe_bytes_recv (counters σ)
          + (if bool_decide (0 < nread ∧ type s = UV_NAMED_PIPE)
             then nread else 0)
      ∧ net_bytes_sent (counters σ') = net_bytes_sent (counters σ)
      ∧ pipe_bytes_sent (counters σ') = pipe_bytes_sent (counters σ)
  | NoBehaviour => False
  end.
Proof.
  intros Hs Hself.
  set (Q := λ σ' : World,
         net_bytes_recv (counters σ') =
           net_bytes_recv (counters σ)
           + (if bool_decide (0 < nread ∧ type s = UV_TCP) then nread else 0)
         ∧ pipe_bytes_recv (counters σ') =
             pipe_bytes_recv (counters σ)
             + (if bool_decide (0 < nread ∧ type s = UV_NAMED_PIPE)
                then nread else 0)
         ∧ net_bytes_sent (counters σ') = net_bytes_sent (counters σ)
         ∧ pipe_bytes_sent (counters σ') = pipe_bytes_sent (counters σ)).
  change (wp (OnUvRead this nread buf) (λ _, Q) (λ _, Q) σ).
  open_read. destruct (persistent this) as [self|]; [|congruence].
  repeat wp_step.
  all: try absurd_branch.
  all: subst Q; cbn beta;
    cbn [counters logged counted stored net_bytes_recv pipe_bytes_recv
         net_bytes_sent pipe_bytes_sent].
  all: reflect_tests; repeat case_bool_decide.
  all: first [ split_and!; lia | exfalso; intuition (congruence || lia) ].
Qed.

(** X7.  On an adapter that is no IPC pipe, [OnUvRead] asks libuv nothing
    about pending handles and accepts nothing, whatever [nread] is.  With
    the persistent handle in place it returns, its only call is the
    [EmitRead] of the pair it was given, and no object changes.  With the
    persistent handle reset it terminates the process at the check,
    having called and changed nothing. *)
Theorem OnUvRead_plain_stream
    (this : LibuvStreamWrap) (nread : Z) (buf : uv_buf_t) (σ : World)
    (s : uv_stream_t) :
  stream this = Some s →
  type s ≠ UV_NAMED_PIPE ∨ ipc s = 0 →
  (persistent this ≠ None →
     ∃ σ' : World,
       OnUvRead this nread buf σ = Returned tt σ'
       ∧ trace σ' = trace σ ++ [Call_EmitRead nread buf]
       ∧ heap σ' = heap σ)
  ∧ (persistent this = None →
       OnUvRead this nread buf σ = Aborted CHECK_persistent σ).
Proof.
  intros Hs Hplain. split; intros Hself.
  - cut (∃ (a : unit) (σ' : World),
           OnUvRead this nread buf σ = Returned a σ'
           ∧ trace σ' = trace σ ++ [Call_EmitRead nread buf]
           ∧ heap σ' = heap σ).
    { intros ([] & σ' & ?). by exists σ'. }
    apply wp_returns. open_read.
    destruct (persistent this) as [self|]; [|congruence]. repeat wp_step.
    all: try absurd_branch.
    all: try (exfalso; reflect_tests; destruct Hplain; congruence).
    all: done.
  - apply wp_aborted. open_read. rewrite Hself. repeat wp_step.
    all: try absurd_branch.
    all: try (exfalso; reflect_tests; destruct Hplain; congruence).
    all: done.
Qed.

(** X8.  A read that arrives after the persistent handle was reset
    terminates the process at the check, before anything is counted,
    accepted, stored or forwarded. *)
Theorem OnUvRead_after_reset_is_fatal
    (this : LibuvStreamWrap) (nread : Z) (buf : uv_buf_t) (σ : World)
    (s : uv_stream_t) :
  stream this = Some s → persistent this = None →
  ∃ σ' : World,
    OnUvRead this nread buf σ = Aborted CHECK_persistent σ'
    ∧ counters σ' = counters σ
    ∧ heap σ' = heap σ
    ∧ avoids touches_reading σ σ'
    ∧ avoids accepts_handle σ σ'.
Proof.
  intros Hs Hself.
  cut (∃ (site : AbortSite) (σ' : World),
         OnUvRead this nread buf σ = Aborted site σ'
         ∧ site = CHECK_persistent
         ∧ counters σ' = counters σ
         ∧ heap σ' = heap σ
         ∧ avoids touches_reading σ σ'
         ∧ avoids accepts_handle σ σ').
  { intros (site & σ' & ? & -> & ?). by exists σ'. }
  apply wp_aborts. open_read. repeat wp_step.
  all: try absurd_branch.
  all: split_and!; auto 10 with trace.
Qed.

(** X9.  On an IPC pipe on which libuv counts no pending handle, the
    pending type is not even asked for, whatever [nread] is.  With the
    persistent handle in place [OnUvRead] makes the count query, adds a
    positive [nread] to the pipe receive counter, forwards the read, and
    that is all: no other call, no other counter, no object changes.  With
    the persistent handle reset it terminates the process at the check,
    after the count query alone. *)
Theorem OnUvRead_nothing_pending
    (this : LibuvStreamWrap) (nread : Z) (buf : uv_buf_t) (σ : World)
    (s : uv_stream_t) :
  stream this = Some s →
  type s = UV_NAMED_PIPE → ipc s ≠ 0 →
  uv_pipe_pending_count (stream this) ≤ 0 →
  (persistent this ≠ None →
     ∃ σ' : World,
       OnUvRead this nread buf σ = Returned tt σ'
       ∧ trace σ' =
           trace σ ++
             [Call_uv_pipe_pending_count (stream this);
              Call_EmitRead nread buf]
       ∧ heap σ' = heap σ
       ∧ pipe_bytes_recv (counters σ') =
           pipe_bytes_recv (counters σ)
           + (if bool_decide (0 < nread) then nread else 0)
       ∧ net_bytes_recv (counters σ') = net_bytes_recv (counters σ)
       ∧ net_bytes_sent (counters σ') = net_bytes_sent (counters σ)
       ∧ pipe_bytes_sent (counters σ') = pipe_bytes_sent (counters σ))
  ∧ (persistent this = None →
       OnUvRead this nread buf σ =
         Aborted CHECK_persistent
           (logged (Call_uv_pipe_pending_count (stream this)) σ)).
Proof.
  intros Hs Hpipe Hipc Hcount. split; intros Hself.
  - cut (∃ (a : unit) (σ' : World),
           OnUvRead this nread buf σ = Returned a σ'
           ∧ trace σ' =
               trace σ ++
                 [Call_uv_pipe_pending_count (stream this);
                  Call_EmitRead nread buf]
           ∧ heap σ' = heap σ
           ∧ pipe_bytes_recv (counters σ') =
               pipe_bytes_recv (counters σ)
               + (if bool_decide (0 < nread) then nread else 0)
           ∧ net_bytes_recv (counters σ') = net_bytes_recv (counters σ)
           ∧ net_bytes_sent (counters σ') = net_bytes_sent (counters σ)
           ∧ pipe_bytes_sent (counters σ') = pipe_bytes_sent (counters σ)).
    { intros ([] & σ' & ?). by exists σ'. }
    apply wp_returns. open_read.
    destruct (persistent this) as [self|]; [|congruence]. repeat wp_step.
    all: try absurd_branch.
    all: cbn [trace heap counters logged counted pipe_bytes_recv
              net_bytes_recv net_bytes_sent pipe_bytes_sent].
    all: reflect_tests; case_bool_decide; try lia.
    all: split_and!; try done; try lia; by rewrite <- app_assoc.
  - apply wp_aborted. open_read. rewrite Hself. repeat wp_step.
    all: try absurd_branch.
    all: done.
Qed.

(** X10.  [AcceptHandle] calls [uv_accept] only for a wrapper that was
    instantiated and has a native wrap behind it: an empty handle from
    [Instantiate], or an object that does not unwrap, makes it return the
    empty handle after the one [Instantiate] call.  When [uv_accept]
    returns 0 it returns the very object that was instantiated. *)
Theorem AcceptHandle_outcomes
    (W : WrapType) (parent : LibuvStreamWrap) (σ : World) :
  let σ1 := logged (Call_Instantiate W parent) σ in
  (Instantiate W parent = None →
     AcceptHandle W parent σ = Returned None σ1)
  ∧ (∀ o : Object,
       Instantiate W parent = Some o → Unwrap o = None →
       AcceptHandle W parent σ = Returned None σ1)
  ∧ (∀ (o : Object) (wrap : NativeWrap),
       Instantiate W parent = Some o → Unwrap o = Some wrap →
       uv_accept (stream parent) (UVHandle wrap) = 0 →
       AcceptHandle W parent σ =
         Returned (Some o)
           (logged (Call_uv_accept (stream parent) (UVHandle wrap)) σ1)).
Proof.
  intros σ1. subst σ1. split_and!.
  - intros Hobj. apply wp_returned. unfold AcceptHandle.
    repeat wp_step; by simplify_eq.
  - intros o Hobj Hwrap. apply wp_returned. unfold AcceptHandle.
    repeat wp_step; by simplify_eq.
  - intros o wrap Hobj Hwrap Hacc. apply wp_returned. unfold AcceptHandle.
    repeat wp_step; try absurd_branch; by simplify_eq.
Qed.

End read_paths.

(** ** DoWrite, the completions and DoShutdown *)

(** The summing loop of [DoWrite] computes the total length modulo 2^64. *)
Lemma sum_bytes_from_mod (l : list uv_buf_t) :
  ∀ acc : Z,
    fold_left (λ bytes b, to_size_t (bytes + len b)) l acc
      = match l with
        | [] => acc
        | _ => to_size_t (acc + total_len l)
        end.
Proof.
  induction l as [|b l IH]; intros acc; [done|].
  cbn [fold_left]. rewrite IH, total_len_cons. destruct l as [|b' l].
  - simpl. by rewrite Z.add_0_r.
  - unfold to_size_t. rewrite Zplus_mod_idemp_l. f_equal. lia.
Qed.

Lemma sum_bytes_mod (l : list uv_buf_t) :
  sum_bytes l = total_len l mod 2 ^ 64.
Proof.
  unfold sum_bytes. rewrite sum_bytes_from_mod. by destruct l.
Qed.

Section write_paths.
Context `{uv : Libuv}.

Ltac open_write :=
  unfold DoWrite, NODE_COUNT_NET_BYTES_SENT, NODE_COUNT_PIPE_BYTES_SENT.

(** X11.  On a dispatch that returns 0, whatever the lengths of the
    buffers, the send counter of a TCP handle or of a named pipe grows by
    the total length reduced modulo 2^64, since [bytes] is a [size_t]; on
    any other handle (a TTY) no counter changes.  The receive counters and
    the objects stay as they were. *)
Theorem DoWrite_counts_modulo_size_t
    (this : LibuvStreamWrap) (w : WriteWrap) (bufs : list uv_buf_t)
    (send_handle : option uv_stream_t) (σ : World) (s : uv_stream_t) :
  stream this = Some s →
  dispatch_status this w bufs send_handle = 0 →
  ∃ σ' : World,
    DoWrite this w bufs send_handle σ = Returned 0 σ'
    ∧ net_bytes_sent (counters σ') =
        net_bytes_sent (counters σ)
        + (if bool_decide (type s = UV_TCP)
           then total_len bufs mod 2 ^ 64 else 0)
    ∧ pipe_bytes_sent (counters σ') =
        pipe_bytes_sent (counters σ)
        + (if bool_decide (type s = UV_NAMED_PIPE)
           then total_len bufs mod 2 ^ 64 else 0)
    ∧ net_bytes_recv (counters σ') = net_bytes_recv (counters σ)
    ∧ pipe_bytes_recv (counters σ') = pipe_bytes_recv (counters σ)
    ∧ heap σ' = heap σ.
Proof.
  intros Hs Hr.
  cut (∃ (a : Z) (σ' : World),
         DoWrite this w bufs send_handle σ = Returned a σ'
         ∧ a = 0
         ∧ net_bytes_sent (counters σ') =
             net_bytes_sent (counters σ)
             + (if bool_decide (type s = UV_TCP)
                then total_len bufs mod 2 ^ 64 else 0)
         ∧ pipe_bytes_sent (counters σ') =
             pipe_bytes_sent (counters σ)
             + (if bool_decide (type s = UV_NAMED_PIPE)
                then total_len bufs mod 2 ^ 64 else 0)
         ∧ net_bytes_recv (counters σ') = net_bytes_recv (counters σ)
         ∧ pipe_bytes_recv (counters σ') = pipe_bytes_recv (counters σ)
         ∧ heap σ' = heap σ).
  { intros (a & σ' & ? & -> & ?). by exists σ'. }
  apply wp_returns. open_write.
  destruct send_handle as [h|]; cbn [dispatch_status] in Hr; repeat wp_step.
  all: try absurd_branch.
  all: simplify_eq; rewrite ?sum_bytes_mod.
  all: cbn [heap counters logged counted net_bytes_sent pipe_bytes_sent
            net_bytes_recv pipe_bytes_recv].
  all: repeat case_bool_decide; try congruence.
  all: split_and!; try done; lia.
Qed.

(** X12.  A write from dispatch to completion: when the dispatch returned
    0 and libuv later completes the request with [status], the calls made
    are, in this order, the dispatch, [Dispatched()] on the request and
    [Done(status)] on the same request, with the status as libuv gave
    it. *)
Theorem write_dispatch_then_completion
    (this : LibuvStreamWrap) (w : WriteWrap) (bufs : list uv_buf_t)
    (send_handle : option uv_stream_t) (status : Z) (σ : World)
    (s : uv_stream_t) :
  stream this = Some s →
  dispatch_status this w bufs send_handle = 0 →
  ∃ σ' : World,
    (DoWrite this w bufs send_handle ;;; AfterUvWrite (Some w) status) σ
      = Returned tt σ'
    ∧ trace σ' =
        trace σ ++
          [dispatch_call this w bufs send_handle;
           Call_Dispatched_write w;
           Call_Done_write w status].
Proof.
  intros Hs Hr.
  cut (∃ (a : unit) (σ' : World),
         (DoWrite this w bufs send_handle ;;; AfterUvWrite (Some w) status) σ
           = Returned a σ'
         ∧ trace σ' =
             trace σ ++
               [dispatch_call this w bufs send_handle;
                Call_Dispatched_write w;
                Call_Done_write w status]).
  { intros ([] & σ' & ?). by exists σ'. }
  apply wp_returns. open_write. unfold AfterUvWrite.
  destruct send_handle as [h|];
    cbn [dispatch_status dispatch_call] in *; repeat wp_step.
  all: try absurd_branch.
  all: cbn [trace logged counted]; by rewrite <- !app_assoc.
Qed.

(** X13.  A shutdown from dispatch to completion: [DoShutdown] marks the
    request dispatched and returns the answer of [uv_shutdown] whatever it
    is, without reading the stream handle; the completion then resolves
    the same request with the status libuv reports, after the dispatch. *)
Theorem shutdown_dispatch_then_completion
    (this : LibuvStreamWrap) (req_wrap : ShutdownWrap) (status : Z)
    (σ : World) :
  DoShutdown this req_wrap σ
    = Returned (uv_shutdown req_wrap (stream this))
        (logged (Call_Dispatched_shutdown req_wrap)
           (logged (Call_uv_shutdown req_wrap (stream this)) σ))
  ∧ ∃ σ' : World,
      (DoShutdown this req_wrap ;;; AfterUvShutdown (Some req_wrap) status) σ
        = Returned tt σ'
      ∧ trace σ' =
          trace σ ++
            [Call_uv_shutdown req_wrap (stream this);
             Call_Dispatched_shutdown req_wrap;
             Call_Done_shutdown req_wrap status]
      ∧ heap σ' = heap σ ∧ counters σ' = counters σ.
Proof.
  split; [reflexivity|]. eexists. split; [reflexivity|].
  cbn [trace heap counters logged]. by rewrite <- !app_assoc.
Qed.

End write_paths.

(** ** SetBlocking and GetWriteQueueSize: the other paths *)

Section accessor_paths.
Context `{uv : Libuv}.

(** X14.  [SetBlocking] checks its argument count before it looks at the
    handle: called without arguments it terminates the process, on a live
    adapter and on one that is not alive alike, and libuv is not called.
    When the receiver does not unwrap, it returns without a return value
    and without any call. *)
Theorem SetBlocking_checks_arguments_first
    (wrap : LibuvStreamWrap) (argv : list Value) (σ : World) :
  SetBlocking (mk_info (Some wrap) []) σ = Aborted CHECK_args_length σ
  ∧ SetBlocking (mk_info None argv) σ = Returned None σ.
Proof. split; reflexivity. Qed.

(** X15.  Blocking mode is switched on only by the boolean [true]: on a
    live adapter any other first argument, a number or an object also,
    makes [SetBlocking] call [uv_stream_set_blocking] with the flag off. *)
Theorem SetBlocking_enables_only_on_true
    (wrap : LibuvStreamWrap) (argv : list Value) (arg0 : Value) (σ : World) :
  handle_alive wrap = true →
  argv !! 0%nat = Some arg0 →
  arg0 ≠ Boolean true →
  SetBlocking (mk_info (Some wrap) argv) σ
    = Returned (Some (uv_stream_set_blocking (stream wrap) false))
        (logged (Call_uv_stream_set_blocking (stream wrap) false) σ).
Proof.
  intros Halive Harg Hnot.
  assert (IsTrue arg0 = false) as Hflag
    by (destruct arg0 as [|[]| |]; done).
  assert (bool_decide (0 < length argv)%nat = true) as Hlen.
  { apply bool_decide_eq_true_2. apply lookup_lt_Some in Harg. lia. }
  unfold SetBlocking, IsAlive. cbn [unwrapped args].
  rewrite Hlen, Halive. run_monad. rewrite Harg, Hflag. reflexivity.
Qed.

(** X16.  Whatever the handle holds, [GetWriteQueueSize] calls nothing,
    changes nothing and, unless the receiver does not unwrap, sets a
    return value that fits [uint32_t]. *)
Theorem GetWriteQueueSize_is_uint32
    (info : FunctionCallbackInfo) (σ : World) :
  ∃ r : option Z,
    GetWriteQueueSize info σ = Returned r σ
    ∧ (r = None ↔ unwrapped info = None)
    ∧ ∀ z : Z, r = Some z → 0 ≤ z ≤ UINT32_MAX.
Proof.
  unfold GetWriteQueueSize.
  destruct (unwrapped info) as [wrap|]; [|by exists None].
  destruct (stream wrap) as [s|].
  - eexists. split; [reflexivity|]. split; [done|].
    intros z [= <-]. unfold to_uint32_t, UINT32_MAX.
    pose proof (Z.mod_pos_bound (write_queue_size s) (2 ^ 32 - 1 + 1)). lia.
  - exists (Some 0). split; [reflexivity|]. split; [done|].
    intros z [= <-]. unfold UINT32_MAX. lia.
Qed.

End accessor_paths.

(** * The further properties on concrete runs *)

Lemma ab_cde_in_bounds (a1 a2 : Z) : in_bounds (ab_cde a1 a2).
Proof. unfold in_bounds. simpl. lia. Qed.

Lemma ab_cde_size_t_lens (a1 a2 : Z) : size_t_lens (view (ab_cde a1 a2)).
Proof.
  unfold size_t_lens, view, ab_cde. simpl. repeat apply Forall_cons_2.
  all: try constructor. all: unfold SIZE_MAX; simpl; lia.
Qed.

(** X1: 4 of the 5 bytes of "ab" and "cde" are written. *)
Lemma DoTryWrite_keeps_vector_in_array_witness :
  ∃ v' : BufVec,
    DoTryWrite (uv := scripted_uv (try_write_reports 4))
               tcp_wrap (ab_cde 1000 2000) quiet
      = Returned (0, v')
          (logged (Call_uv_try_write (stream tcp_wrap)
                                     (view (ab_cde 1000 2000))) quiet)
    ∧ (bufs v' + count v' = 2)%nat
    ∧ in_bounds v'.
Proof.
  destruct (DoTryWrite_keeps_vector_in_array
              (uv := scripted_uv (try_write_reports 4))
              tcp_wrap (ab_cde 1000 2000) quiet (ab_cde_in_bounds _ _))
    as (v' & Hrun & _ & Hend & _ & Hin & _).
  - vm_compute. discriminate.
  - exists v'. split; [exact Hrun|]. split; [exact Hend | exact Hin].
Defined.

(** X2: all 5 bytes are written. *)
Lemma DoTryWrite_full_write_empties_witness :
  ∃ v' : BufVec,
    DoTryWrite (uv := scripted_uv (try_write_reports 5))
               tcp_wrap (ab_cde 1000 2000) quiet
      = Returned (0, v')
          (logged (Call_uv_try_write (stream tcp_wrap)
                                     (view (ab_cde 1000 2000))) quiet)
    ∧ count v' = 0%nat
    ∧ view v' = [].
Proof.
  apply (DoTryWrite_full_write_empties
           (uv := scripted_uv (try_write_reports 5))
           tcp_wrap (ab_cde 1000 2000) quiet
           (ab_cde_in_bounds _ _) (ab_cde_size_t_lens _ _)).
  reflexivity.
Defined.

(** X3: 3 bytes are written, "de" is left inside "cde". *)
Lemma DoTryWrite_leaves_suffixes_witness :
  ∃ v' : BufVec,
    DoTryWrite (uv := scripted_uv (try_write_reports 3))
               tcp_wrap (ab_cde 1000 2000) quiet
      = Returned (0, v')
          (logged (Call_uv_try_write (stream tcp_wrap)
                                     (view (ab_cde 1000 2000))) quiet)
    ∧ ∀ b' : uv_buf_t,
        b' ∈ view v' → ∃ b, b ∈ view (ab_cde 1000 2000) ∧ suffix_of b' b.
Proof.
  apply (DoTryWrite_leaves_suffixes
           (uv := scripted_uv (try_write_reports 3))
           tcp_wrap (ab_cde 1000 2000) quiet
           (ab_cde_in_bounds _ _) (ab_cde_size_t_lens _ _)).
  vm_compute. split; discriminate.
Defined.

(** X4: two writes of 2 bytes each leave 1 of the 5 bytes. *)
Lemma DoTryWrite_twice_witness :
  ∃ (v1 v2 : BufVec) (σ1 σ2 : World),
    DoTryWrite (uv := scripted_uv (try_write_reports 2))
               tcp_wrap (ab_cde 1000 2000) quiet = Returned (0, v1) σ1
    ∧ DoTryWrite (uv := scripted_uv (try_write_reports 2))
                 tcp_wrap v1 σ1 = Returned (0, v2) σ2
    ∧ total_len (view v2) = 1.
Proof.
  destruct (DoTryWrite_twice
              (uv := scripted_uv (try_write_reports 2))
              tcp_wrap (ab_cde 1000 2000) quiet
              (ab_cde_in_bounds _ _) (ab_cde_size_t_lens _ _))
    as (v1 & σ1 & Hrun1 & Hnext).
  - vm_compute. split; discriminate.
  - assert (v1 = mk_vec [mk_buf 1000 2; mk_buf 2000 3] 1 1) as Hv1.
    { assert (DoTryWrite (uv := scripted_uv (try_write_reports 2))
                tcp_wrap (ab_cde 1000 2000) quiet
              = Returned (0, mk_vec [mk_buf 1000 2; mk_buf 2000 3] 1 1)
                  (logged (Call_uv_try_write (stream tcp_wrap)
                             (view (ab_cde 1000 2000))) quiet)) as Hrun
        by reflexivity.
      rewrite Hrun in Hrun1. by injection Hrun1. }
    destruct Hnext as (v2 & σ2 & Hrun2 & Htotal & _).
    + rewrite Hv1. vm_compute. split; discriminate.
    + exists v1, v2, σ1, σ2. split; [exact Hrun1|]. split; [exact Hrun2|].
      rewrite Htotal, Hv1. reflexivity.
Defined.

(** X5: nothing of "ab" and "cde" is written. *)
Lemma DoTryWrite_nothing_written_witness :
  DoTryWrite (uv := scripted_uv (try_write_reports 0))
             tcp_wrap (ab_cde 1000 2000) quiet
    = Returned (0, ab_cde 1000 2000)
        (logged (Call_uv_try_write (stream tcp_wrap)
                                   (view (ab_cde 1000 2000))) quiet).
Proof.
  apply (proj1 (proj2 (DoTryWrite_nothing_written
                         (uv := scripted_uv (try_write_reports 0))
                         tcp_wrap (ab_cde 1000 2000) quiet eq_refl))
               (mk_buf 1000 2) [mk_buf 2000 3] eq_refl).
  unfold SIZE_MAX. simpl. lia.
Defined.

(** X6: 5 bytes arrive on a TCP adapter. *)
Lemma OnUvRead_counts_received_bytes_witness :
  match OnUvRead (uv := scripted_uv calm) (node := scripted_node calm)
                 tcp_wrap 5 read_buf quiet with
  | Returned _ σ' =>
      net_bytes_recv (counters σ') = 5 ∧ pipe_bytes_recv (counters σ') = 0
  | _ => False
  end.
Proof.
  pose proof (OnUvRead_counts_received_bytes
                (uv := scripted_uv calm) (node := scripted_node calm)
                tcp_wrap 5 read_buf quiet (mk_stream 1 UV_TCP 0 0) eq_refl
                ltac:(discriminate)) as (Hnet & Hpipe & _).
  split; [exact Hnet | exact Hpipe].
Defined.

(** X7: end of stream on a TTY. *)
Lemma OnUvRead_plain_stream_witness :
  ∃ σ' : World,
    OnUvRead (uv := scripted_uv calm) (node := scripted_node calm)
             tty_wrap (-4095) read_buf quiet = Returned tt σ'
    ∧ trace σ' = [Call_EmitRead (-4095) read_buf]
    ∧ heap σ' = ∅.
Proof.
  assert (type (mk_stream 1 UV_TTY 0 0) ≠ UV_NAMED_PIPE
          ∨ ipc (mk_stream 1 UV_TTY 0 0) = 0) as Hplain
    by (left; discriminate).
  apply (proj1 (OnUvRead_plain_stream
                  (uv := scripted_uv calm) (node := scripted_node calm)
                  tty_wrap (-4095) read_buf quiet (mk_stream 1 UV_TTY 0 0)
                  eq_refl Hplain)).
  discriminate.
Defined.

(** X8: 5 bytes arrive after the persistent handle was reset. *)
Lemma OnUvRead_after_reset_is_fatal_witness :
  ∃ σ' : World,
    OnUvRead (uv := scripted_uv calm) (node := scripted_node calm)
             reset_wrap 5 read_buf quiet = Aborted CHECK_persistent σ'
    ∧ counters σ' = counters quiet
    ∧ heap σ' = heap quiet
    ∧ avoids touches_reading quiet σ'
    ∧ avoids accepts_handle quiet σ'.
Proof.
  apply (OnUvRead_after_reset_is_fatal
           (uv := scripted_uv calm) (node := scripted_node calm)
           reset_wrap 5 read_buf quiet (mk_stream 1 UV_TCP 0 0) eq_refl
           eq_refl).
Defined.

(** X9: 5 bytes arrive on an IPC pipe with no handle pending. *)
Lemma OnUvRead_nothing_pending_witness :
  ∃ σ' : World,
    OnUvRead (uv := scripted_uv calm) (node := scripted_node calm)
             ipc_wrap 5 read_buf quiet = Returned tt σ'
    ∧ trace σ' =
        [Call_uv_pipe_pending_count (stream ipc_wrap);
         Call_EmitRead 5 read_buf]
    ∧ heap σ' = ∅
    ∧ pipe_bytes_recv (counters σ') = 5
    ∧ net_bytes_recv (counters σ') = 0
    ∧ net_bytes_sent (counters σ') = 0
    ∧ pipe_bytes_sent (counters σ') = 0.
Proof.
  assert (ipc (mk_stream 1 UV_NAMED_PIPE 1 0) ≠ 0) as Hipc by discriminate.
  assert (uv_pipe_pending_count (Libuv := scripted_uv calm) (stream ipc_wrap)
          ≤ 0) as Hcount by discriminate.
  apply (proj1 (OnUvRead_nothing_pending
                  (uv := scripted_uv calm) (node := scripted_node calm)
                  ipc_wrap 5 read_buf quiet (mk_stream 1 UV_NAMED_PIPE 1 0)
                  eq_refl eq_refl Hipc Hcount)).
  discriminate.
Defined.

(** X10: the instantiated object has no native wrap. *)
Lemma AcceptHandle_outcomes_witness :
  AcceptHandle (uv := scripted_uv pending_unwrappable)
               (node := scripted_node pending_unwrappable)
               TCPWrap ipc_wrap quiet
    = Returned None (logged (Call_Instantiate TCPWrap ipc_wrap) quiet).
Proof.
  apply (proj1 (proj2 (AcceptHandle_outcomes
                         (uv := scripted_uv pending_unwrappable)
                         (node := scripted_node pending_unwrappable)
                         TCPWrap ipc_wrap quiet))
               7%nat eq_refl eq_refl).
Defined.

(** X11: two buffers of 2^63 bytes each are written over TCP: the counter
    grows by 2^64 modulo 2^64, that is, not at all. *)
Lemma DoWrite_counts_modulo_size_t_witness :
  ∃ σ' : World,
    DoWrite (uv := scripted_uv calm) tcp_wrap (mk_write_wrap 3)
            [mk_buf 1000 (2 ^ 63); mk_buf 1000 (2 ^ 63)] None quiet
      = Returned 0 σ'
    ∧ net_bytes_sent (counters σ') = 0.
Proof.
  destruct (DoWrite_counts_modulo_size_t
              (uv := scripted_uv calm) tcp_wrap (mk_write_wrap 3)
              [mk_buf 1000 (2 ^ 63); mk_buf 1000 (2 ^ 63)] None quiet
              (mk_stream 1 UV_TCP 0 0) eq_refl eq_refl)
    as (σ' & Hrun & Hnet & _).
  exists σ'. split; [exact Hrun|]. rewrite Hnet. reflexivity.
Defined.

(** X12: a write of "ab" over TCP completes with status 0. *)
Lemma write_dispatch_then_completion_witness :
  ∃ σ' : World,
    (DoWrite (uv := scripted_uv calm) tcp_wrap (mk_write_wrap 3)
             [mk_buf 1000 2] None ;;;
     AfterUvWrite (Some (mk_write_wrap 3)) 0) quiet
      = Returned tt σ'
    ∧ trace σ' =
        [Call_uv_write (mk_write_wrap 3) (stream tcp_wrap) [mk_buf 1000 2];
         Call_Dispatched_write (mk_write_wrap 3);
         Call_Done_write (mk_write_wrap 3) 0].
Proof.
  apply (write_dispatch_then_completion
           (uv := scripted_uv calm) tcp_wrap (mk_write_wrap 3)
           [mk_buf 1000 2] None 0 quiet (mk_stream 1 UV_TCP 0 0)
           eq_refl eq_refl).
Defined.

(** X15: [setBlocking(1)] on a live TCP adapter. *)
Lemma SetBlocking_enables_only_on_true_witness :
  SetBlocking (uv := scripted_uv calm)
              (mk_info (Some tcp_wrap) [Int32 1]) quiet
    = Returned (Some 0)
        (logged (Call_uv_stream_set_blocking (stream tcp_wrap) false) quiet).
Proof.
  apply (SetBlocking_enables_only_on_true
           (uv := scripted_uv calm) tcp_wrap [Int32 1] (Int32 1) quiet
           eq_refl eq_refl).
  discriminate.
Defined.

(** X16: 2^40 bytes are queued. *)
Lemma GetWriteQueueSize_is_uint32_witness :
  ∃ r : option Z,
    GetWriteQueueSize (mk_info (Some (queued_wrap (2 ^ 40))) []) quiet
      = Returned r quiet
    ∧ (r = None ↔ Some (queued_wrap (2 ^ 40)) = None)
    ∧ ∀ z : Z, r = Some z → 0 ≤ z ≤ UINT32_MAX.
Proof.
  exact (GetWriteQueueSize_is_uint32
           (mk_info (Some (queued_wrap (2 ^ 40))) []) quiet).
Defined.
